(** * Assets API: the three read-only endpoints of [app.py]

    The service of [app.py] answers every request with one SQL query over the
    table [assets].  The development below embeds those queries shallowly:
    the table is a list of rows in scan order, every SQL construct that the
    queries use (aggregates, [COALESCE], [CASE], [GROUP BY], [JOIN ... USING],
    [WHERE], [ORDER BY], [LIMIT]/[OFFSET]) is a Rocq function, and the
    declarative request validation of the handlers ([Query(..., ge=, le=)])
    is a function into an HTTP response type.

    Numbers: the columns [energy_consumed_per_hour], [planned_active_hours]
    and [actual_active_hours] are read as real numbers ([R]); rounding of the
    database's numeric type is not modelled.  The columns of [assets] are
    taken to hold no [NULL] (the response models declare them [str] and
    [float]); [NULL] only arises from aggregates over no rows.  Overflow of
    the database's floating-point type, which the database reports as an
    error, has no counterpart over [R].  The parameters [$5] and [$6] of the
    listing are bound as 64-bit integers; the connection pool and the
    serialisation of the response are outside the model. *)

From Stdlib Require Import Reals Lra Lia ZArith List String Ascii Bool.
From Stdlib Require Import Sorting.Permutation Sorting.Sorted.
Import ListNotations.

Set Implicit Arguments.

(* ================================================================== *)
(** * SQL values, expressions and relational operators *)
(* ================================================================== *)

Module SQL.

(** A nullable value: [None] is SQL's [NULL]. *)
Definition nullable (A : Type) : Type := option A.

(** Errors that the evaluation of an expression can raise. *)
Inductive error : Type :=
| division_by_zero.

(** The outcome of evaluating an expression or running a query. *)
Inductive outcome (A : Type) : Type :=
| Raised (e : error)
| Done (a : A).

Arguments Raised {A} e.
Arguments Done {A} a.

Definition bind {A B : Type} (m : outcome A) (k : A -> outcome B) : outcome B :=
  match m with
  | Raised e => Raised e
  | Done a => k a
  end.

Notation "x <- m ;; k" := (bind m (fun x => k))
  (at level 61, m at next level, right associativity).

Fixpoint mapM {A B : Type} (f : A -> outcome B) (l : list A) : outcome (list B) :=
  match l with
  | [] => Done []
  | x :: l' => y <- f x ;; ys <- mapM f l' ;; Done (y :: ys)
  end.

Fixpoint filterM {A : Type} (f : A -> outcome bool) (l : list A) : outcome (list A) :=
  match l with
  | [] => Done []
  | x :: l' =>
      b <- f x ;; ys <- filterM f l' ;; Done (if b then x :: ys else ys)
  end.

(** ** Comparisons on reals, as booleans *)

Definition Rgtb (x y : R) : bool := if Rlt_dec y x then true else false.
Definition Rgeb (x y : R) : bool := if Rle_dec y x then true else false.
Definition Rleb (x y : R) : bool := if Rle_dec x y then true else false.
Definition Reqb (x y : R) : bool := if Req_dec_T x y then true else false.

(** ** Scalar expressions (strict in [NULL]) *)

Definition minus (x y : nullable R) : nullable R :=
  match x, y with
  | Some a, Some b => Some (a - b)%R
  | _, _ => None
  end.

(** [x / y]: a zero divisor raises; a [NULL] operand gives [NULL]. *)
Definition div (x y : nullable R) : outcome (nullable R) :=
  match x, y with
  | Some a, Some b =>
      if Reqb b 0 then Raised division_by_zero else Done (Some (a / b)%R)
  | _, _ => Done None
  end.

Definition ABS (x : nullable R) : nullable R :=
  match x with
  | Some a => Some (Rabs a)
  | None => None
  end.

(** Three-valued comparisons. *)
Definition gt (x y : nullable R) : nullable bool :=
  match x, y with
  | Some a, Some b => Some (Rgtb a b)
  | _, _ => None
  end.

Definition ge (x y : nullable R) : nullable bool :=
  match x, y with
  | Some a, Some b => Some (Rgeb a b)
  | _, _ => None
  end.

(** A condition of [WHERE] or [CASE WHEN] holds when it is true; both
    false and [NULL] fail it. *)
Definition holds (c : nullable bool) : bool :=
  match c with
  | Some true => true
  | _ => false
  end.

Definition COALESCE {A : Type} (x : nullable A) (d : A) : A :=
  match x with
  | Some a => a
  | None => d
  end.

(** ** Aggregates: [NULL] over no rows *)

Definition Rsum (l : list R) : R := fold_right Rplus 0%R l.
Definition Zsum (l : list Z) : Z := fold_right Z.add 0%Z l.

Definition SUM (l : list R) : nullable R :=
  match l with
  | [] => None
  | _ :: _ => Some (Rsum l)
  end.

Definition SUM_int (l : list Z) : nullable Z :=
  match l with
  | [] => None
  | _ :: _ => Some (Zsum l)
  end.

Definition mean (l : list R) : R := (Rsum l / INR (List.length l))%R.

Definition AVG (l : list R) : nullable R :=
  match l with
  | [] => None
  | _ :: _ => Some (mean l)
  end.

(** Population variance: the squared deviations from the mean, summed and
    divided by the number of values. *)
Definition var_pop (l : list R) : R :=
  (Rsum (map (fun x => (x - mean l) * (x - mean l)) l) / INR (List.length l))%R.

Definition STDDEV_POP (l : list R) : nullable R :=
  match l with
  | [] => None
  | _ :: _ => Some (sqrt (var_pop l))
  end.

(** ** [ORDER BY]: a stable insertion sort

    SQL leaves the order of rows with equal keys open; the model keeps
    them in scan order. *)
Section OrderBy.
Variable A : Type.
Variable leb : A -> A -> bool.

Fixpoint insert (x : A) (l : list A) : list A :=
  match l with
  | [] => [x]
  | y :: l' => if leb x y then x :: l else y :: insert x l'
  end.

Fixpoint ORDER_BY (l : list A) : list A :=
  match l with
  | [] => []
  | x :: l' => insert x (ORDER_BY l')
  end.
End OrderBy.

(** [ORDER BY k DESC]: larger keys first, [NULL] keys before all others. *)
Definition desc_leb (x y : nullable R) : bool :=
  match x, y with
  | None, _ => true
  | Some _, None => false
  | Some a, Some b => Rgeb a b
  end.

(** ** [LIMIT] and [OFFSET] *)
Definition LIMIT {A : Type} (n : Z) (l : list A) : list A := firstn (Z.to_nat n) l.
Definition OFFSET {A : Type} (n : Z) (l : list A) : list A := skipn (Z.to_nat n) l.

(** ** Parameters of type [bigint]

    The parameters of [LIMIT] and [OFFSET] are 64-bit integers; a value
    outside their range cannot be bound, and the call raises. *)
Definition int8_min : Z := (- 2 ^ 63)%Z.
Definition int8_max : Z := (2 ^ 63 - 1)%Z.

Definition fits_int8 (v : Z) : bool := ((int8_min <=? v) && (v <=? int8_max))%Z.

(** [$n::text IS NULL OR col = $n], for a column without [NULL]. *)
Definition is_null_or_eq (param : nullable string) (col : string) : bool :=
  match param with
  | None => true
  | Some v => String.eqb col v
  end.

End SQL.

Import SQL.

(* ================================================================== *)
(** * The HTTP layer: declared query parameters and responses *)
(* ================================================================== *)

Module Http.

(** What a handler answers: the body, or the validation error that the
    framework sends when a query parameter violates its declaration, or a
    server error when the handler raises. *)
Inductive response (A : Type) : Type :=
| OK (body : A)
| UnprocessableEntity
| InternalServerError.

Arguments OK {A} body.
Arguments UnprocessableEntity {A}.
Arguments InternalServerError {A}.

(** [Query(default, ge=.., le=..)] for a [float] parameter. *)
Record QueryFloat : Type := {
  float_default : R;
  float_ge : option R;
  float_le : option R
}.

(** [Query(default, ge=.., le=..)] for an [int] parameter. *)
Record QueryInt : Type := {
  int_default : Z;
  int_ge : option Z;
  int_le : option Z
}.

Definition check_float_ge (bound : option R) (v : R) : bool :=
  match bound with
  | None => true
  | Some b => Rgeb v b
  end.

Definition check_float_le (bound : option R) (v : R) : bool :=
  match bound with
  | None => true
  | Some b => Rleb v b
  end.

Definition check_int_ge (bound : option Z) (v : Z) : bool :=
  match bound with
  | None => true
  | Some b => (b <=? v)%Z
  end.

Definition check_int_le (bound : option Z) (v : Z) : bool :=
  match bound with
  | None => true
  | Some b => (v <=? b)%Z
  end.

(** The value a handler receives: the default when the parameter is
    absent from the request, the supplied value when it meets the declared
    bounds, and no value (the request is refused) otherwise. *)
Definition resolve_float (q : QueryFloat) (supplied : option R) : option R :=
  match supplied with
  | None => Some (float_default q)
  | Some v =>
      if check_float_ge (float_ge q) v && check_float_le (float_le q) v
      then Some v else None
  end.

Definition resolve_int (q : QueryInt) (supplied : option Z) : option Z :=
  match supplied with
  | None => Some (int_default q)
  | Some v =>
      if check_int_ge (int_ge q) v && check_int_le (int_le q) v
      then Some v else None
  end.

End Http.

Import Http.

(* ================================================================== *)
(** * Data model *)
(* ================================================================== *)

(** A row of the table [assets], with the columns the queries read. *)
Module Asset.
Record t : Type := {
  asset_id : string;
  asset_type : string;
  building : string;
  floor : string;
  zone : string;
  status : string;
  fault_reoccurrence_level : string;
  energy_consumed_per_hour : R;
  planned_active_hours : R;
  actual_active_hours : R
}.
End Asset.

Module KpiSummary.
Record t : Type := {
  baseline_kwh : R;
  actual_kwh : R;
  saved_kwh : R;
  offline_count : Z
}.
End KpiSummary.

(** A row of the anomalies query; the three computed columns are nullable
    in SQL. *)
Module AnomalyDTO.
Record t : Type := {
  asset_id : string;
  asset_type : string;
  building : string;
  floor : string;
  zone : string;
  actual_kwh : R;
  avg_kwh : nullable R;
  std_kwh : nullable R;
  zscore : nullable R
}.
End AnomalyDTO.

(** The database: the rows of [assets] in scan order, and the collation
    that [ORDER BY] uses on text columns ([text_leb a b]: [a] sorts no later
    than [b]). *)
Record Database : Type := {
  assets : list Asset.t;
  text_leb : string -> string -> bool
}.

(** The collation is a total order on strings. *)
Record collation_ok (leb : string -> string -> bool) : Prop := {
  collation_total : forall a b, leb a b = true \/ leb b a = true;
  collation_antisym : forall a b, leb a b = true -> leb b a = true -> a = b;
  collation_trans : forall a b c, leb a b = true -> leb b c = true -> leb a c = true
}.

(** [planned_active_hours * energy_consumed_per_hour] *)
Definition planned_energy (a : Asset.t) : R :=
  (Asset.planned_active_hours a * Asset.energy_consumed_per_hour a)%R.

(** [actual_active_hours * energy_consumed_per_hour] *)
Definition actual_energy (a : Asset.t) : R :=
  (Asset.actual_active_hours a * Asset.energy_consumed_per_hour a)%R.

(* ================================================================== *)
(** * GET /kpi/summary *)
(* ================================================================== *)

(** [CASE WHEN status = 'OFFLINE' THEN 1 ELSE 0 END] *)
Definition offline_flag (a : Asset.t) : Z :=
  if String.eqb (Asset.status a) "OFFLINE" then 1%Z else 0%Z.

Definition kpi_summary (db : Database) : KpiSummary.t :=
  let rows := assets db in
  {| KpiSummary.baseline_kwh := COALESCE (SUM (map planned_energy rows)) 0%R;
     KpiSummary.actual_kwh := COALESCE (SUM (map actual_energy rows)) 0%R;
     KpiSummary.saved_kwh :=
       COALESCE (minus (SUM (map planned_energy rows))
                       (SUM (map actual_energy rows))) 0%R;
     KpiSummary.offline_count := COALESCE (SUM_int (map offline_flag rows)) 0%Z |}.

(* ================================================================== *)
(** * GET /assets *)
(* ================================================================== *)

(** The [WHERE] clause: one [$n::text IS NULL OR col = $n] per filter. *)
Definition where_clause (building floor asset_type status : nullable string)
    (a : Asset.t) : bool :=
  is_null_or_eq building (Asset.building a)
  && is_null_or_eq floor (Asset.floor a)
  && is_null_or_eq asset_type (Asset.asset_type a)
  && is_null_or_eq status (Asset.status a).

(** The sort key of [ORDER BY asset_type, building, floor, asset_id]. *)
Definition sort_key (a : Asset.t) : list string :=
  [Asset.asset_type a; Asset.building a; Asset.floor a; Asset.asset_id a].

(** Keys are compared column by column: the first column on which they
    differ decides, by the collation. *)
Fixpoint lex_leb (leb : string -> string -> bool) (k1 k2 : list string) : bool :=
  match k1, k2 with
  | x :: k1', y :: k2' => if String.eqb x y then lex_leb leb k1' k2' else leb x y
  | _, _ => true
  end.

Definition listing_leb (leb : string -> string -> bool) (a b : Asset.t) : bool :=
  lex_leb leb (sort_key a) (sort_key b).

Definition list_assets_query (db : Database)
    (building floor asset_type status : nullable string) (limit offset : Z)
    : list Asset.t :=
  LIMIT limit
    (OFFSET offset
       (ORDER_BY (listing_leb (text_leb db))
          (filter (where_clause building floor asset_type status) (assets db)))).

(** [limit: int = Query(500, ge=1, le=5000)] *)
Definition limit_param : QueryInt :=
  {| int_default := 500; int_ge := Some 1%Z; int_le := Some 5000%Z |}.

(** [offset: int = Query(0, ge=0)] *)
Definition offset_param : QueryInt :=
  {| int_default := 0; int_ge := Some 0%Z; int_le := None |}.

(** The handler: the four filters are optional and unconstrained; [limit]
    and [offset] are checked against their declarations first, then bound
    to [$5] and [$6]; when that fails the handler raises and the answer is a
    server error. *)
Definition list_assets (db : Database)
    (building floor asset_type status : option string) (limit offset : option Z)
    : response (list Asset.t) :=
  match resolve_int limit_param limit, resolve_int offset_param offset with
  | Some l, Some o =>
      if fits_int8 l && fits_int8 o
      then OK (list_assets_query db building floor asset_type status l o)
      else InternalServerError
  | _, _ => UnprocessableEntity
  end.

(* ================================================================== *)
(** * GET /insights/anomalies *)
(* ================================================================== *)

(** A row of the common table expression [peer]. *)
Module Peer.
Record t : Type := {
  asset_type : string;
  avg_kwh : nullable R;
  std_kwh : nullable R
}.
End Peer.

(** The rows of one group of [GROUP BY asset_type]. *)
Definition cohort (rows : list Asset.t) (ty : string) : list Asset.t :=
  filter (fun a => String.eqb (Asset.asset_type a) ty) rows.

(** [WITH peer AS (SELECT asset_type, AVG(..), STDDEV_POP(..) FROM assets
    GROUP BY asset_type)]: one row per distinct [asset_type]. *)
Definition peer (rows : list Asset.t) : list Peer.t :=
  map (fun ty =>
         {| Peer.asset_type := ty;
            Peer.avg_kwh := AVG (map actual_energy (cohort rows ty));
            Peer.std_kwh := STDDEV_POP (map actual_energy (cohort rows ty)) |})
      (nodup string_dec (map Asset.asset_type rows)).

(** [FROM assets a JOIN peer p USING (asset_type)] *)
Definition join_peer (rows : list Asset.t) (peers : list Peer.t)
    : list (Asset.t * Peer.t) :=
  flat_map
    (fun a =>
       map (pair a)
           (filter (fun p => String.eqb (Asset.asset_type a) (Peer.asset_type p))
                   peers))
    rows.

(** [CASE WHEN p.std_kwh > 0
          THEN ((a.actual_active_hours * a.energy_consumed_per_hour) - p.avg_kwh)
               / p.std_kwh
          ELSE 0 END] *)
Definition zscore_case (a : Asset.t) (p : Peer.t) : outcome (nullable R) :=
  if holds (gt (Peer.std_kwh p) (Some 0%R))
  then div (minus (Some (actual_energy a)) (Peer.avg_kwh p)) (Peer.std_kwh p)
  else Done (Some 0%R).

(** [WHERE ABS(CASE ...) >= $1] *)
Definition anomaly_where (z : R) (ap : Asset.t * Peer.t) : outcome bool :=
  v <- zscore_case (fst ap) (snd ap) ;; Done (holds (ge (ABS v) (Some z))).

(** The key of [ORDER BY ABS(CASE ...) DESC]. *)
Definition anomaly_key (ap : Asset.t * Peer.t) : outcome (nullable R * (Asset.t * Peer.t)) :=
  v <- zscore_case (fst ap) (snd ap) ;; Done (ABS v, ap).

(** The select list. *)
Definition anomaly_select (ap : Asset.t * Peer.t) : outcome AnomalyDTO.t :=
  let a := fst ap in
  let p := snd ap in
  v <- zscore_case a p ;;
  Done {| AnomalyDTO.asset_id := Asset.asset_id a;
          AnomalyDTO.asset_type := Asset.asset_type a;
          AnomalyDTO.building := Asset.building a;
          AnomalyDTO.floor := Asset.floor a;
          AnomalyDTO.zone := Asset.zone a;
          AnomalyDTO.actual_kwh := actual_energy a;
          AnomalyDTO.avg_kwh := Peer.avg_kwh p;
          AnomalyDTO.std_kwh := Peer.std_kwh p;
          AnomalyDTO.zscore := v |}.

(** The matches of the [WHERE] clause, in scan order. *)
Definition anomaly_matches (db : Database) (z : R) : outcome (list (Asset.t * Peer.t)) :=
  filterM (anomaly_where z) (join_peer (assets db) (peer (assets db))).

Definition key_desc_leb (x y : nullable R * (Asset.t * Peer.t)) : bool :=
  desc_leb (fst x) (fst y).

(** The matches in the order of [ORDER BY]. *)
Definition anomaly_ranking (db : Database) (z : R) : outcome (list (Asset.t * Peer.t)) :=
  kept <- anomaly_matches db z ;;
  keyed <- mapM anomaly_key kept ;;
  Done (map snd (ORDER_BY key_desc_leb keyed)).

(** The whole statement: filter, sort, [LIMIT 50], select. *)
Definition anomalies_query (db : Database) (z : R) : outcome (list AnomalyDTO.t) :=
  ranked <- anomaly_ranking db z ;;
  mapM anomaly_select (LIMIT 50 ranked).

(** [z: float = Query(2.0, ge=0.0, le=10.0)] *)
Definition z_param : QueryFloat :=
  {| float_default := 2; float_ge := Some 0%R; float_le := Some 10%R |}.

Definition anomalies (db : Database) (z : option R) : response (list AnomalyDTO.t) :=
  match resolve_float z_param z with
  | None => UnprocessableEntity
  | Some threshold =>
      match anomalies_query db threshold with
      | Raised _ => InternalServerError
      | Done rows => OK rows
      end
  end.

(** ** Closed forms used in the statements *)

(** The row of [peer] for the group [ty]. *)
Definition peer_of (rows : list Asset.t) (ty : string) : Peer.t :=
  {| Peer.asset_type := ty;
     Peer.avg_kwh := AVG (map actual_energy (cohort rows ty));
     Peer.std_kwh := STDDEV_POP (map actual_energy (cohort rows ty)) |}.

(** Mean and population standard deviation of the energies of a cohort. *)
Definition cohort_mean (rows : list Asset.t) (ty : string) : R :=
  mean (map actual_energy (cohort rows ty)).

Definition cohort_std (rows : list Asset.t) (ty : string) : R :=
  sqrt (var_pop (map actual_energy (cohort rows ty))).

(** The z-score of an asset against its own cohort. *)
Definition zscore_of (rows : list Asset.t) (a : Asset.t) : R :=
  let ty := Asset.asset_type a in
  if Rgtb (cohort_std rows ty) 0
  then ((actual_energy a - cohort_mean rows ty) / cohort_std rows ty)%R
  else 0%R.

(** An asset next to the [peer] row of its own cohort. *)
Definition with_peer (rows : list Asset.t) (a : Asset.t) : Asset.t * Peer.t :=
  (a, peer_of rows (Asset.asset_type a)).

Definition scored_where (rows : list Asset.t) (z : R) (ap : Asset.t * Peer.t) : bool :=
  Rgeb (Rabs (zscore_of rows (fst ap))) z.

Definition scored_key (rows : list Asset.t) (ap : Asset.t * Peer.t)
    : nullable R * (Asset.t * Peer.t) :=
  (Some (Rabs (zscore_of rows (fst ap))), ap).

Definition scored_select (rows : list Asset.t) (ap : Asset.t * Peer.t) : AnomalyDTO.t :=
  {| AnomalyDTO.asset_id := Asset.asset_id (fst ap);
     AnomalyDTO.asset_type := Asset.asset_type (fst ap);
     AnomalyDTO.building := Asset.building (fst ap);
     AnomalyDTO.floor := Asset.floor (fst ap);
     AnomalyDTO.zone := Asset.zone (fst ap);
     AnomalyDTO.actual_kwh := actual_energy (fst ap);
     AnomalyDTO.avg_kwh := Peer.avg_kwh (snd ap);
     AnomalyDTO.std_kwh := Peer.std_kwh (snd ap);
     AnomalyDTO.zscore := Some (zscore_of rows (fst ap)) |}.

(** Closed forms of the three stages of the query. *)
Definition scored_matches (rows : list Asset.t) (z : R) : list (Asset.t * Peer.t) :=
  filter (scored_where rows z) (map (with_peer rows) rows).

Definition scored_ranking (rows : list Asset.t) (z : R) : list (Asset.t * Peer.t) :=
  map snd (ORDER_BY key_desc_leb (map (scored_key rows) (scored_matches rows z))).

Definition scored_rows (rows : list Asset.t) (z : R) : list AnomalyDTO.t :=
  map (scored_select rows) (scored_ranking rows z).

(** Descending order of the absolute z-scores of two result rows. *)
Definition abs_zscore_ge (r1 r2 : AnomalyDTO.t) : Prop :=
  exists v1 v2,
    AnomalyDTO.zscore r1 = Some v1 /\ AnomalyDTO.zscore r2 = Some v2 /\
    (Rabs v1 >= Rabs v2)%R.

(** [a] sorts strictly before [b] in the collation of the database. *)
Definition text_lt (db : Database) (a b : string) : Prop :=
  text_leb db a b = true /\ a <> b.

(** Ascending order by [(asset_type, building, floor, asset_id)], written
    out on the columns: the first column on which two rows differ puts the
    one with the smaller value first. *)
Definition ascending_by_key (db : Database) (r1 r2 : Asset.t) : Prop :=
  text_lt db (Asset.asset_type r1) (Asset.asset_type r2) \/
  (Asset.asset_type r1 = Asset.asset_type r2 /\
   (text_lt db (Asset.building r1) (Asset.building r2) \/
    (Asset.building r1 = Asset.building r2 /\
     (text_lt db (Asset.floor r1) (Asset.floor r2) \/
      (Asset.floor r1 = Asset.floor r2 /\
       text_leb db (Asset.asset_id r1) (Asset.asset_id r2) = true))))).

(** The bytewise collation. *)
Definition bytewise_db (rows : list Asset.t) : Database :=
  {| assets := rows; text_leb := String.leb |}.

(** The threshold that clamping a supplied [z] into [[0, 10]] would give. *)
Definition clamped_z (v : R) : R := Rmax 0 (Rmin v 10).

(** The response of the handler when the query runs with threshold [t]. *)
Definition run_anomalies (db : Database) (t : R) : response (list AnomalyDTO.t) :=
  match anomalies_query db t with
  | Raised _ => InternalServerError
  | Done rows => OK rows
  end.

(** ** Sample data for the worked instances *)

Definition sample_asset (id ty : string) (hours rate : R) : Asset.t :=
  {| Asset.asset_id := id;
     Asset.asset_type := ty;
     Asset.building := "Building A";
     Asset.floor := "F3";
     Asset.zone := "Z1";
     Asset.status := "ONLINE";
     Asset.fault_reoccurrence_level := "LOW";
     Asset.energy_consumed_per_hour := rate;
     Asset.planned_active_hours := hours;
     Asset.actual_active_hours := hours |}.

(** Three units of one type and a lone pump. *)
Definition sample_rows : list Asset.t :=
  [ sample_asset "A" "HVAC" 10 1;
    sample_asset "B" "HVAC" 10 1;
    sample_asset "C" "HVAC" 100 1;
    sample_asset "D" "PUMP" 5 2 ].

Definition sample_db : Database := bytewise_db sample_rows.

(* ================================================================== *)
(** * Lemmas on the SQL operators *)
(* ================================================================== *)

Section MonadFacts.
Context {A B : Type}.

Lemma mapM_pure (f : A -> outcome B) (g : A -> B) (l : list A) :
  (forall x, In x l -> f x = Done (g x)) -> mapM f l = Done (map g l).
Proof.
  induction l as [|x l IH]; intros Hf; simpl.
  - reflexivity.
  - rewrite (Hf x (or_introl eq_refl)). simpl.
    rewrite IH by (intros y Hy; apply Hf; right; exact Hy).
    reflexivity.
Qed.

Lemma filterM_pure (f : A -> outcome bool) (g : A -> bool) (l : list A) :
  (forall x, In x l -> f x = Done (g x)) -> filterM f l = Done (filter g l).
Proof.
  induction l as [|x l IH]; intros Hf; simpl.
  - reflexivity.
  - rewrite (Hf x (or_introl eq_refl)). simpl.
    rewrite IH by (intros y Hy; apply Hf; right; exact Hy).
    simpl. destruct (g x); reflexivity.
Qed.
End MonadFacts.

Section OrderByFacts.
Variable A : Type.
Variable leb : A -> A -> bool.

Let le (x y : A) : Prop := leb x y = true.

Lemma insert_perm (x : A) (l : list A) : Permutation (x :: l) (insert leb x l).
Proof.
  induction l as [|y l IH]; simpl.
  - apply Permutation_refl.
  - destruct (leb x y).
    + apply Permutation_refl.
    + eapply Permutation_trans; [apply perm_swap|].
      apply perm_skip. exact IH.
Qed.

Lemma ORDER_BY_perm (l : list A) : Permutation l (ORDER_BY leb l).
Proof.
  induction l as [|x l IH]; simpl.
  - apply Permutation_refl.
  - eapply Permutation_trans; [apply perm_skip; exact IH|].
    apply insert_perm.
Qed.

Lemma ORDER_BY_In (l : list A) (x : A) : In x (ORDER_BY leb l) <-> In x l.
Proof.
  split; intros H.
  - eapply Permutation_in; [apply Permutation_sym, ORDER_BY_perm|exact H].
  - eapply Permutation_in; [apply ORDER_BY_perm|exact H].
Qed.

Lemma ORDER_BY_length (l : list A) : List.length (ORDER_BY leb l) = List.length l.
Proof. symmetry. apply Permutation_length, ORDER_BY_perm. Qed.

Hypothesis leb_total : forall x y, leb x y = true \/ leb y x = true.
Hypothesis leb_trans : forall x y z, leb x y = true -> leb y z = true -> leb x z = true.

Lemma insert_sorted (x : A) (l : list A) :
  StronglySorted le l -> StronglySorted le (insert leb x l).
Proof.
  induction l as [|y l IH]; intros Hs; simpl.
  - constructor; [constructor|constructor].
  - destruct (leb x y) eqn:Hxy.
    + constructor; [exact Hs|].
      inversion Hs as [|? ? Hs' Hall]; subst.
      constructor; [exact Hxy|].
      rewrite Forall_forall in *. intros w Hw.
      eapply leb_trans; [exact Hxy|apply Hall; exact Hw].
    + inversion Hs as [|? ? Hs' Hall]; subst.
      constructor; [apply IH; exact Hs'|].
      rewrite Forall_forall in *. intros w Hw.
      apply (Permutation_in _ (Permutation_sym (insert_perm x l))) in Hw.
      destruct Hw as [<-|Hw].
      * destruct (leb_total x y) as [H|H]; [congruence|exact H].
      * apply Hall; exact Hw.
Qed.

Lemma ORDER_BY_sorted (l : list A) : StronglySorted le (ORDER_BY leb l).
Proof.
  induction l as [|x l IH]; simpl.
  - constructor.
  - apply insert_sorted; exact IH.
Qed.
End OrderByFacts.

Section SortedFacts.
Variable A : Type.
Variable le : A -> A -> Prop.

Lemma In_firstn (n : nat) (l : list A) (x : A) : In x (firstn n l) -> In x l.
Proof.
  intros H. rewrite <- (firstn_skipn n l). apply in_or_app. left; exact H.
Qed.

Lemma In_skipn (n : nat) (l : list A) (x : A) : In x (skipn n l) -> In x l.
Proof.
  intros H. rewrite <- (firstn_skipn n l). apply in_or_app. right; exact H.
Qed.

Lemma StronglySorted_skipn (n : nat) (l : list A) :
  StronglySorted le l -> StronglySorted le (skipn n l).
Proof.
  revert l; induction n as [|n IH]; intros l Hs; simpl.
  - exact Hs.
  - destruct l as [|x l]; [constructor|].
    apply IH. inversion Hs; assumption.
Qed.

Lemma StronglySorted_firstn (n : nat) (l : list A) :
  StronglySorted le l -> StronglySorted le (firstn n l).
Proof.
  revert l; induction n as [|n IH]; intros l Hs; simpl.
  - constructor.
  - destruct l as [|x l]; [constructor|].
    inversion Hs as [|? ? Hs' Hall]; subst.
    constructor; [apply IH; exact Hs'|].
    rewrite Forall_forall in *. intros w Hw.
    apply Hall. eapply In_firstn; exact Hw.
Qed.

(** In a sorted list, every element of a prefix precedes every element
    of the remainder. *)
Lemma StronglySorted_prefix_le (n : nat) (l : list A) (x y : A) :
  StronglySorted le l -> In x (firstn n l) -> In y (skipn n l) -> le x y.
Proof.
  revert l; induction n as [|n IH]; intros l Hs Hx Hy; simpl in *.
  - contradiction.
  - destruct l as [|z l]; [contradiction|].
    inversion Hs as [|? ? Hs' Hall]; subst.
    destruct Hx as [<-|Hx].
    + rewrite Forall_forall in Hall. apply Hall.
      eapply In_skipn; exact Hy.
    + apply (IH l); assumption.
Qed.

Lemma StronglySorted_map {B : Type} (f : B -> A) (leB : B -> B -> Prop) (l : list B) :
  (forall x y, In x l -> In y l -> leB x y -> le (f x) (f y)) ->
  StronglySorted leB l -> StronglySorted le (map f l).
Proof.
  induction l as [|x l IH]; intros Hf Hs; simpl.
  - constructor.
  - inversion Hs as [|? ? Hs' Hall]; subst.
    constructor.
    + apply IH; [|exact Hs'].
      intros u v Hu Hv. apply Hf; right; assumption.
    + rewrite Forall_forall in *. intros w Hw.
      apply in_map_iff in Hw. destruct Hw as [v [<- Hv]].
      apply Hf; [left; reflexivity|right; exact Hv|apply Hall; exact Hv].
Qed.
End SortedFacts.

(* ================================================================== *)
(** * Lemmas on the anomalies query *)
(* ================================================================== *)

Section RealComparisons.
Lemma Rgtb_true (x y : R) : Rgtb x y = true <-> (x > y)%R.
Proof. unfold Rgtb. destruct (Rlt_dec y x); split; intros; try lra; discriminate. Qed.

Lemma Rgeb_true (x y : R) : Rgeb x y = true <-> (x >= y)%R.
Proof. unfold Rgeb. destruct (Rle_dec y x); split; intros; try lra; discriminate. Qed.

Lemma Rleb_true (x y : R) : Rleb x y = true <-> (x <= y)%R.
Proof. unfold Rleb. destruct (Rle_dec x y); split; intros; try lra; discriminate. Qed.

Lemma Rgtb_false (x y : R) : Rgtb x y = false <-> (x <= y)%R.
Proof. unfold Rgtb. destruct (Rlt_dec y x); split; intros; try lra; discriminate. Qed.

Lemma Rgeb_false (x y : R) : Rgeb x y = false <-> (x < y)%R.
Proof. unfold Rgeb. destruct (Rle_dec y x); split; intros; try lra; discriminate. Qed.

Lemma Rleb_false (x y : R) : Rleb x y = false <-> (x > y)%R.
Proof. unfold Rleb. destruct (Rle_dec x y); split; intros; try lra; discriminate. Qed.

Lemma Reqb_false (x y : R) : x <> y -> Reqb x y = false.
Proof. unfold Reqb. destruct (Req_dec_T x y); intros; [contradiction|reflexivity]. Qed.
End RealComparisons.

Section CohortFacts.
Variable rows : list Asset.t.

Lemma cohort_In (ty : string) (b : Asset.t) :
  In b (cohort rows ty) <-> In b rows /\ Asset.asset_type b = ty.
Proof.
  unfold cohort. rewrite filter_In, String.eqb_eq. reflexivity.
Qed.

Lemma cohort_self (a : Asset.t) : In a rows -> In a (cohort rows (Asset.asset_type a)).
Proof. intros H. apply cohort_In. split; [exact H|reflexivity]. Qed.

Lemma cohort_std_nonneg (ty : string) : (0 <= cohort_std rows ty)%R.
Proof. unfold cohort_std. apply sqrt_pos. Qed.

Lemma peer_of_stats (a : Asset.t) :
  In a rows ->
  Peer.avg_kwh (peer_of rows (Asset.asset_type a))
    = Some (cohort_mean rows (Asset.asset_type a)) /\
  Peer.std_kwh (peer_of rows (Asset.asset_type a))
    = Some (cohort_std rows (Asset.asset_type a)).
Proof.
  intros H. apply cohort_self in H.
  unfold peer_of, cohort_mean, cohort_std; simpl.
  destruct (cohort rows (Asset.asset_type a)) as [|b l]; [contradiction|].
  simpl. split; reflexivity.
Qed.

Lemma filter_key_nodup (ty : string) (keys : list string) :
  NoDup keys -> In ty keys -> filter (fun k => String.eqb ty k) keys = [ty].
Proof.
  induction keys as [|k keys IH]; intros Hnd Hin; [contradiction|].
  inversion Hnd as [|? ? Hk Hnd']; subst. simpl.
  destruct (String.eqb ty k) eqn:E.
  - apply String.eqb_eq in E. subst k. f_equal.
    clear IH Hin Hnd Hnd'.
    induction keys as [|k' keys IH]; [reflexivity|]. simpl.
    destruct (String.eqb ty k') eqn:E'.
    + apply String.eqb_eq in E'. subst k'. exfalso. apply Hk. left; reflexivity.
    + apply IH. intros H. apply Hk. right; exact H.
  - destruct Hin as [->|Hin].
    + rewrite String.eqb_refl in E. discriminate.
    + apply IH; assumption.
Qed.

Lemma peer_lookup (a : Asset.t) :
  In a rows ->
  filter (fun p => String.eqb (Asset.asset_type a) (Peer.asset_type p)) (peer rows)
    = [peer_of rows (Asset.asset_type a)].
Proof.
  intros H. unfold peer.
  set (mk := fun ty => {| Peer.asset_type := ty;
                          Peer.avg_kwh := AVG (map actual_energy (cohort rows ty));
                          Peer.std_kwh := STDDEV_POP (map actual_energy (cohort rows ty)) |}).
  assert (Hf : forall keys,
             filter (fun p => String.eqb (Asset.asset_type a) (Peer.asset_type p))
                    (map mk keys)
             = map mk (filter (fun k => String.eqb (Asset.asset_type a) k) keys)).
  { induction keys as [|k keys IH]; [reflexivity|]. simpl.
    destruct (String.eqb (Asset.asset_type a) k); simpl; rewrite IH; reflexivity. }
  rewrite Hf, filter_key_nodup.
  - reflexivity.
  - apply NoDup_nodup.
  - apply nodup_In, in_map. exact H.
Qed.

Lemma join_peer_closed :
  join_peer rows (peer rows) = map (with_peer rows) rows.
Proof.
  unfold join_peer.
  assert (H : forall l, incl l rows ->
            flat_map
              (fun a => map (pair a)
                 (filter (fun p => String.eqb (Asset.asset_type a) (Peer.asset_type p))
                         (peer rows))) l
            = map (with_peer rows) l).
  { induction l as [|a l IH]; intros Hl; [reflexivity|]. simpl.
    rewrite peer_lookup by (apply Hl; left; reflexivity).
    rewrite IH by (intros x Hx; apply Hl; right; exact Hx).
    reflexivity. }
  apply H, incl_refl.
Qed.

Lemma In_join_peer (a : Asset.t) (p : Peer.t) :
  In (a, p) (join_peer rows (peer rows))
  <-> In a rows /\ p = peer_of rows (Asset.asset_type a).
Proof.
  rewrite join_peer_closed, in_map_iff. unfold with_peer. split.
  - intros [b [E Hb]]. inversion E; subst. split; [exact Hb|reflexivity].
  - intros [Ha ->]. exists a. split; [reflexivity|exact Ha].
Qed.

Lemma zscore_case_closed (a : Asset.t) :
  In a rows ->
  zscore_case a (peer_of rows (Asset.asset_type a)) = Done (Some (zscore_of rows a)).
Proof.
  intros H. destruct (peer_of_stats a H) as [Havg Hstd].
  unfold zscore_case, zscore_of. rewrite Havg, Hstd. simpl.
  destruct (Rgtb (cohort_std rows (Asset.asset_type a)) 0) eqn:E; simpl.
  - apply Rgtb_true in E. rewrite Reqb_false by lra. reflexivity.
  - reflexivity.
Qed.
End CohortFacts.

Section QueryClosedForm.
Variable db : Database.
Variable z : R.

Let rows : list Asset.t := assets db.

(** A pair of the join: an asset of the table next to its own peer row. *)
Let joined (ap : Asset.t * Peer.t) : Prop :=
  In (fst ap) rows /\ snd ap = peer_of rows (Asset.asset_type (fst ap)).

Lemma with_peer_joined (ap : Asset.t * Peer.t) :
  In ap (map (with_peer rows) rows) -> joined ap.
Proof.
  intros H. apply in_map_iff in H. destruct H as [a [<- Ha]].
  split; [exact Ha|reflexivity].
Qed.

Lemma scored_matches_joined (ap : Asset.t * Peer.t) :
  In ap (scored_matches rows z) -> joined ap.
Proof.
  intros H. apply filter_In in H. apply with_peer_joined, H.
Qed.

Lemma scored_ranking_perm : Permutation (scored_matches rows z) (scored_ranking rows z).
Proof.
  unfold scored_ranking.
  eapply Permutation_trans;
    [|apply Permutation_map, (ORDER_BY_perm key_desc_leb)].
  rewrite map_map. simpl. rewrite map_id. apply Permutation_refl.
Qed.

Lemma scored_ranking_joined (ap : Asset.t * Peer.t) :
  In ap (scored_ranking rows z) -> joined ap.
Proof.
  intros H. apply scored_matches_joined.
  eapply Permutation_in; [apply Permutation_sym, scored_ranking_perm|exact H].
Qed.

Lemma zscore_case_joined (ap : Asset.t * Peer.t) :
  joined ap -> zscore_case (fst ap) (snd ap) = Done (Some (zscore_of rows (fst ap))).
Proof.
  intros [Ha Hp]. rewrite Hp. apply zscore_case_closed. exact Ha.
Qed.

Lemma anomaly_matches_closed : anomaly_matches db z = Done (scored_matches rows z).
Proof.
  unfold anomaly_matches, scored_matches. fold rows.
  rewrite join_peer_closed.
  apply filterM_pure. intros ap Hap.
  unfold anomaly_where. rewrite zscore_case_joined by (apply with_peer_joined; exact Hap).
  simpl. unfold scored_where. destruct (Rgeb _ z); reflexivity.
Qed.

Lemma anomaly_ranking_closed : anomaly_ranking db z = Done (scored_ranking rows z).
Proof.
  unfold anomaly_ranking. rewrite anomaly_matches_closed. simpl.
  rewrite (mapM_pure anomaly_key (scored_key rows)).
  - reflexivity.
  - intros ap Hap. unfold anomaly_key.
    rewrite zscore_case_joined by (apply scored_matches_joined; exact Hap).
    reflexivity.
Qed.

Lemma anomalies_query_closed :
  anomalies_query db z = Done (LIMIT 50 (scored_rows rows z)).
Proof.
  unfold anomalies_query. rewrite anomaly_ranking_closed. simpl.
  unfold scored_rows, LIMIT. rewrite firstn_map.
  apply mapM_pure. intros ap Hap.
  apply In_firstn in Hap.
  unfold anomaly_select. rewrite zscore_case_joined by (apply scored_ranking_joined; exact Hap).
  reflexivity.
Qed.

Lemma key_desc_leb_total (x y : nullable R * (Asset.t * Peer.t)) :
  key_desc_leb x y = true \/ key_desc_leb y x = true.
Proof.
  unfold key_desc_leb, desc_leb.
  destruct (fst x) as [a|], (fst y) as [b|]; auto.
  rewrite !Rgeb_true. lra.
Qed.

Lemma key_desc_leb_trans (x y w : nullable R * (Asset.t * Peer.t)) :
  key_desc_leb x y = true -> key_desc_leb y w = true -> key_desc_leb x w = true.
Proof.
  unfold key_desc_leb, desc_leb.
  destruct (fst x) as [a|], (fst y) as [b|], (fst w) as [c|];
    auto; try discriminate.
  rewrite !Rgeb_true. lra.
Qed.

Lemma scored_rows_sorted : StronglySorted abs_zscore_ge (scored_rows rows z).
Proof.
  unfold scored_rows, scored_ranking. rewrite map_map.
  apply StronglySorted_map with (leB := fun x y => key_desc_leb x y = true).
  - intros x y Hx Hy Hle.
    apply ORDER_BY_In, in_map_iff in Hx. destruct Hx as [ap [<- _]].
    apply ORDER_BY_In, in_map_iff in Hy. destruct Hy as [bp [<- _]].
    unfold key_desc_leb, scored_key in Hle. simpl in Hle. apply Rgeb_true in Hle.
    exists (zscore_of rows (fst ap)), (zscore_of rows (fst bp)).
    simpl. repeat split; try reflexivity. exact Hle.
  - apply ORDER_BY_sorted.
    + apply key_desc_leb_total.
    + apply key_desc_leb_trans.
Qed.

(** What a row of the full ranking looks like. *)
Lemma scored_rows_In (r : AnomalyDTO.t) :
  In r (scored_rows rows z) ->
  exists a, In a rows /\ r = scored_select rows (with_peer rows a) /\
            (Rabs (zscore_of rows a) >= z)%R.
Proof.
  intros H. apply in_map_iff in H. destruct H as [ap [<- Hap]].
  apply (Permutation_in _ (Permutation_sym scored_ranking_perm)) in Hap.
  apply filter_In in Hap. destruct Hap as [Hin Hw].
  apply in_map_iff in Hin. destruct Hin as [a [<- Ha]].
  exists a. split; [exact Ha|]. split; [reflexivity|].
  apply Rgeb_true. exact Hw.
Qed.
End QueryClosedForm.

(* ================================================================== *)
(** * Properties of GET /insights/anomalies *)
(* ================================================================== *)

Unset Implicit Arguments.

(** C1: for every asset of the join, with [m] and [s] the mean and the
    population standard deviation of its category, the [CASE] expression
    evaluates to [(actual_energy - m) / s] when [s > 0] and to [0] when
    [s = 0]; one of the two always applies, and the expression never raises
    a division by zero. *)
Theorem zscore_case_formula (db : Database) (a : Asset.t) (p : Peer.t) :
  In (a, p) (join_peer (assets db) (peer (assets db))) ->
  exists m s,
    Peer.avg_kwh p = Some m /\ Peer.std_kwh p = Some s /\
    m = cohort_mean (assets db) (Asset.asset_type a) /\
    s = cohort_std (assets db) (Asset.asset_type a) /\
    ((s > 0)%R ->
     zscore_case a p = Done (Some ((actual_energy a - m) / s)%R)) /\
    (s = 0%R -> zscore_case a p = Done (Some 0%R)) /\
    ((s > 0)%R \/ s = 0%R) /\
    zscore_case a p <> Raised division_by_zero.
Proof.
  intros H. apply In_join_peer in H. destruct H as [Ha ->].
  destruct (peer_of_stats (assets db) a Ha) as [Havg Hstd].
  exists (cohort_mean (assets db) (Asset.asset_type a)),
         (cohort_std (assets db) (Asset.asset_type a)).
  pose proof (cohort_std_nonneg (assets db) (Asset.asset_type a)) as Hs.
  pose proof (zscore_case_closed (assets db) a Ha) as Hz.
  unfold zscore_of in Hz.
  repeat split; try assumption.
  - intros Hpos. rewrite Hz.
    apply Rgtb_true in Hpos. rewrite Hpos. reflexivity.
  - intros H0. rewrite Hz.
    assert (E : Rgtb (cohort_std (assets db) (Asset.asset_type a)) 0 = false)
      by (apply Rgtb_false; lra).
    rewrite E. reflexivity.
  - lra.
  - rewrite Hz. discriminate.
Qed.

Lemma zscore_case_formula_witness :
  let a := sample_asset "C" "HVAC" 100 1 in
  let p := peer_of sample_rows "HVAC" in
  In (a, p) (join_peer (assets sample_db) (peer (assets sample_db))) /\
  exists m s,
    Peer.avg_kwh p = Some m /\ Peer.std_kwh p = Some s /\
    m = cohort_mean (assets sample_db) (Asset.asset_type a) /\
    s = cohort_std (assets sample_db) (Asset.asset_type a) /\
    ((s > 0)%R ->
     zscore_case a p = Done (Some ((actual_energy a - m) / s)%R)) /\
    (s = 0%R -> zscore_case a p = Done (Some 0%R)) /\
    ((s > 0)%R \/ s = 0%R) /\
    zscore_case a p <> Raised division_by_zero.
Proof.
  assert (H : In (sample_asset "C" "HVAC" 100 1, peer_of sample_rows "HVAC")
                 (join_peer (assets sample_db) (peer (assets sample_db)))).
  { simpl. right. right. left. reflexivity. }
  split; [exact H|].
  exact (zscore_case_formula sample_db _ _ H).
Defined.

(** C2: the query returns, and every returned row carries a z-score whose
    absolute value reaches the threshold; an asset whose absolute z-score is
    below the threshold contributes no row. *)
Theorem anomalies_rows_reach_threshold (db : Database) (z : R) :
  exists rows,
    anomalies_query db z = Done rows /\
    (forall r, In r rows ->
       exists v, AnomalyDTO.zscore r = Some v /\ (Rabs v >= z)%R) /\
    (forall a p v r,
       In (a, p) (join_peer (assets db) (peer (assets db))) ->
       zscore_case a p = Done (Some v) -> (Rabs v < z)%R ->
       anomaly_select (a, p) = Done r -> ~ In r rows).
Proof.
  exists (LIMIT 50 (scored_rows (assets db) z)).
  split; [apply anomalies_query_closed|].
  assert (Hrow : forall r, In r (LIMIT 50 (scored_rows (assets db) z)) ->
            exists v, AnomalyDTO.zscore r = Some v /\ (Rabs v >= z)%R).
  { intros r Hr. apply In_firstn, scored_rows_In in Hr.
    destruct Hr as [a [_ [-> Hge]]].
    exists (zscore_of (assets db) a). split; [reflexivity|exact Hge]. }
  split; [exact Hrow|].
  intros a p v r Hap Hz Hlt Hsel Hin.
  destruct (Hrow r Hin) as [w [Hw Hge]].
  unfold anomaly_select in Hsel. simpl in Hsel. rewrite Hz in Hsel. simpl in Hsel.
  inversion Hsel; subst r. simpl in Hw. inversion Hw; subst w. lra.
Qed.

(** C3: the returned rows are the first 50 of the ranking of all matches:
    the ranking is a permutation of the matches of the [WHERE] clause, its
    rows are in non-increasing order of absolute z-score, the answer is its
    prefix of length at most 50, and every row left out ranks no higher than
    any returned row. *)
Theorem anomalies_ranked_then_capped (db : Database) (z : R) :
  exists matches ranked rows dropped,
    anomaly_matches db z = Done matches /\
    anomaly_ranking db z = Done ranked /\
    Permutation matches ranked /\
    mapM anomaly_select ranked = Done (rows ++ dropped) /\
    StronglySorted abs_zscore_ge (rows ++ dropped) /\
    anomalies_query db z = Done rows /\
    StronglySorted abs_zscore_ge rows /\
    (List.length rows <= 50)%nat /\
    List.length rows = Nat.min 50 (List.length matches) /\
    (forall r d, In r rows -> In d dropped -> abs_zscore_ge r d).
Proof.
  exists (scored_matches (assets db) z), (scored_ranking (assets db) z),
         (firstn 50 (scored_rows (assets db) z)),
         (skipn 50 (scored_rows (assets db) z)).
  pose proof (scored_rows_sorted db z) as Hs.
  rewrite firstn_skipn.
  repeat split.
  - apply anomaly_matches_closed.
  - apply anomaly_ranking_closed.
  - apply scored_ranking_perm.
  - apply mapM_pure. intros ap Hap. unfold anomaly_select.
    rewrite (zscore_case_joined db) by (apply (scored_ranking_joined db z); exact Hap).
    reflexivity.
  - exact Hs.
  - apply anomalies_query_closed.
  - apply StronglySorted_firstn. exact Hs.
  - apply firstn_le_length.
  - rewrite length_firstn. unfold scored_rows. rewrite length_map.
    rewrite <- (Permutation_length (scored_ranking_perm db z)). reflexivity.
  - intros r d Hr Hd.
    exact (@StronglySorted_prefix_le _ abs_zscore_ge 50 _ r d Hs Hr Hd).
Qed.

(** C4: an asset of the table is joined with exactly one [peer] row, the
    one of its own [asset_type]; the mean and standard deviation of that row
    are taken over all rows of the table with that [asset_type], the asset
    itself among them; and two tables with the same rows of that type give
    the asset the same statistics, whatever their other rows. *)
Theorem peer_statistics_own_cohort (rows : list Asset.t) (a : Asset.t) :
  In a rows ->
  let ty := Asset.asset_type a in
  let energies := map actual_energy (cohort rows ty) in
  (exists p, In (a, p) (join_peer rows (peer rows))) /\
  (forall p, In (a, p) (join_peer rows (peer rows)) ->
     Peer.asset_type p = ty /\
     Peer.avg_kwh p = Some (mean energies) /\
     Peer.std_kwh p = Some (sqrt (var_pop energies))) /\
  In a (cohort rows ty) /\
  (forall b, In b (cohort rows ty) <-> In b rows /\ Asset.asset_type b = ty) /\
  (forall rows' p p',
     cohort rows' ty = cohort rows ty ->
     In (a, p) (join_peer rows (peer rows)) ->
     In (a, p') (join_peer rows' (peer rows')) ->
     p' = p).
Proof.
  intros Ha ty energies.
  destruct (peer_of_stats rows a Ha) as [Havg Hstd].
  split; [|split; [|split; [|split]]].
  - exists (peer_of rows ty). apply In_join_peer. split; [exact Ha|reflexivity].
  - intros p H. apply In_join_peer in H. destruct H as [_ ->].
    split; [reflexivity|]. split; [exact Havg|exact Hstd].
  - apply cohort_self. exact Ha.
  - intros b. apply cohort_In.
  - intros rows' p p' Hc Hp Hp'.
    apply In_join_peer in Hp. destruct Hp as [_ ->].
    apply In_join_peer in Hp'. destruct Hp' as [_ ->].
    unfold peer_of. fold ty. rewrite Hc. reflexivity.
Qed.

Lemma peer_statistics_own_cohort_witness :
  let a := sample_asset "D" "PUMP" 5 2 in
  In a sample_rows /\
  (forall p, In (a, p) (join_peer sample_rows (peer sample_rows)) ->
     Peer.asset_type p = "PUMP"%string /\
     Peer.avg_kwh p = Some (mean (map actual_energy (cohort sample_rows "PUMP"))) /\
     Peer.std_kwh p
       = Some (sqrt (var_pop (map actual_energy (cohort sample_rows "PUMP"))))).
Proof.
  assert (H : In (sample_asset "D" "PUMP" 5 2) sample_rows).
  { simpl. right. right. right. left. reflexivity. }
  split; [exact H|].
  exact (proj1 (proj2 (peer_statistics_own_cohort sample_rows _ H))).
Defined.

Section SingletonStatistics.
Variable e : R.

Lemma mean_singleton : mean [e] = e.
Proof. unfold mean. simpl. field. Qed.

Lemma var_pop_singleton : var_pop [e] = 0%R.
Proof. unfold var_pop. rewrite mean_singleton. simpl. field. Qed.

Lemma STDDEV_POP_singleton : STDDEV_POP [e] = Some 0%R.
Proof. unfold STDDEV_POP. rewrite var_pop_singleton, sqrt_0. reflexivity. Qed.
End SingletonStatistics.

(** C6: when the table holds exactly one asset of some type, the [peer] row
    of that asset has standard deviation 0, its z-score is 0, and for every
    threshold above 0 the answer has no row of that type. *)
Theorem singleton_cohort_excluded (db : Database) (a : Asset.t) :
  cohort (assets db) (Asset.asset_type a) = [a] ->
  (exists p, In (a, p) (join_peer (assets db) (peer (assets db)))) /\
  (forall p, In (a, p) (join_peer (assets db) (peer (assets db))) ->
     Peer.std_kwh p = Some 0%R /\ zscore_case a p = Done (Some 0%R)) /\
  (forall z, (z > 0)%R ->
     exists rows,
       anomalies_query db z = Done rows /\
       forall r, In r rows -> AnomalyDTO.asset_type r <> Asset.asset_type a).
Proof.
  intros Hc.
  assert (Ha : In a (assets db)).
  { apply (cohort_In (assets db) (Asset.asset_type a) a).
    rewrite Hc. left; reflexivity. }
  assert (Hstd : Peer.std_kwh (peer_of (assets db) (Asset.asset_type a)) = Some 0%R).
  { unfold peer_of. simpl. rewrite Hc. simpl map. apply STDDEV_POP_singleton. }
  assert (Hz : zscore_of (assets db) a = 0%R).
  { unfold zscore_of, cohort_std. rewrite Hc. simpl map.
    rewrite var_pop_singleton, sqrt_0.
    assert (E : Rgtb 0 0 = false) by (apply Rgtb_false; lra).
    rewrite E. reflexivity. }
  split; [|split].
  - exists (peer_of (assets db) (Asset.asset_type a)).
    apply In_join_peer. split; [exact Ha|reflexivity].
  - intros p Hp. apply In_join_peer in Hp. destruct Hp as [_ ->].
    split; [exact Hstd|].
    rewrite zscore_case_closed by exact Ha. rewrite Hz. reflexivity.
  - intros z Hpos. exists (LIMIT 50 (scored_rows (assets db) z)).
    split; [apply anomalies_query_closed|].
    intros r Hr Hty. apply In_firstn, scored_rows_In in Hr.
    destruct Hr as [b [Hb [-> Hge]]]. simpl in Hty.
    assert (Hbc : In b (cohort (assets db) (Asset.asset_type a)))
      by (apply cohort_In; split; assumption).
    rewrite Hc in Hbc. destruct Hbc as [<-|[]].
    rewrite Hz, Rabs_R0 in Hge. lra.
Qed.

Lemma singleton_cohort_excluded_witness :
  let a := sample_asset "D" "PUMP" 5 2 in
  cohort (assets sample_db) (Asset.asset_type a) = [a] /\
  (forall p, In (a, p) (join_peer (assets sample_db) (peer (assets sample_db))) ->
     Peer.std_kwh p = Some 0%R /\ zscore_case a p = Done (Some 0%R)) /\
  (forall z, (z > 0)%R ->
     exists rows,
       anomalies_query sample_db z = Done rows /\
       forall r, In r rows -> AnomalyDTO.asset_type r <> "PUMP"%string).
Proof.
  assert (H : cohort (assets sample_db)
                (Asset.asset_type (sample_asset "D" "PUMP" 5 2))
              = [sample_asset "D" "PUMP" 5 2]) by reflexivity.
  split; [exact H|].
  exact (proj2 (singleton_cohort_excluded sample_db _ H)).
Defined.

Section ThresholdParameter.
Lemma resolve_z_absent : resolve_float z_param None = Some 2%R.
Proof. reflexivity. Qed.

Lemma resolve_z_in_range (v : R) :
  (0 <= v <= 10)%R -> resolve_float z_param (Some v) = Some v.
Proof.
  intros [H0 H10]. unfold resolve_float. simpl.
  assert (E1 : Rgeb v 0 = true) by (apply Rgeb_true; lra).
  assert (E2 : Rleb v 10 = true) by (apply Rleb_true; lra).
  rewrite E1, E2. reflexivity.
Qed.

Lemma resolve_z_out_of_range (v : R) :
  (v < 0 \/ v > 10)%R -> resolve_float z_param (Some v) = None.
Proof.
  intros H. unfold resolve_float. simpl.
  destruct H as [H|H].
  - assert (E : Rgeb v 0 = false) by (apply Rgeb_false; lra).
    rewrite E. reflexivity.
  - assert (E : Rleb v 10 = false) by (apply Rleb_false; lra).
    rewrite E, andb_false_r. reflexivity.
Qed.

Lemma resolve_z_bounds (z : option R) (t : R) :
  resolve_float z_param z = Some t -> (0 <= t <= 10)%R.
Proof.
  destruct z as [v|]; simpl.
  - unfold resolve_float. simpl.
    destruct (Rgeb v 0) eqn:E1; [|discriminate].
    destruct (Rleb v 10) eqn:E2; [|discriminate].
    simpl. intros H. inversion H; subst t.
    apply Rgeb_true in E1. apply Rleb_true in E2. lra.
  - intros H. inversion H; subst t. lra.
Qed.
End ThresholdParameter.

(** C7: over the empty table the query returns no row, for every threshold
    and without raising; the handler answers the empty list for [z = 2.0]
    and for an absent [z], and never a server error. *)
Theorem anomalies_empty_table (leb : string -> string -> bool) :
  let db := {| assets := []; text_leb := leb |} in
  (forall z, anomalies_query db z = Done []) /\
  anomalies db (Some 2%R) = OK [] /\
  anomalies db None = OK [] /\
  (forall z, anomalies db z <> InternalServerError).
Proof.
  intros db.
  assert (Hq : forall z, anomalies_query db z = Done []) by (intros z; reflexivity).
  split; [exact Hq|]. split; [|split].
  - unfold anomalies. rewrite resolve_z_in_range by lra. rewrite Hq. reflexivity.
  - unfold anomalies. rewrite resolve_z_absent, Hq. reflexivity.
  - intros z. unfold anomalies.
    destruct (resolve_float z_param z); [rewrite Hq|]; discriminate.
Qed.

(** C5 as stated fails: a supplied [z = 11] is refused with a validation
    error; the query is not run with the clamped threshold 10. *)
Lemma z_out_of_range_not_clamped :
  resolve_float z_param (Some 11%R) = None /\
  resolve_float z_param (Some 11%R) <> Some (clamped_z 11) /\
  anomalies sample_db (Some 11%R) = UnprocessableEntity /\
  anomalies sample_db (Some 11%R) <> run_anomalies sample_db (clamped_z 11).
Proof.
  assert (H : resolve_float z_param (Some 11%R) = None)
    by (apply resolve_z_out_of_range; lra).
  assert (Ha : anomalies sample_db (Some 11%R) = UnprocessableEntity)
    by (unfold anomalies; rewrite H; reflexivity).
  split; [exact H|]. split; [rewrite H; discriminate|].
  split; [exact Ha|].
  rewrite Ha. unfold run_anomalies.
  rewrite anomalies_query_closed. discriminate.
Qed.

(** C5, amended: an absent [z] runs the query with threshold 2.0; a
    supplied [z] within [[0, 10]] runs it with that value; a supplied [z]
    outside [[0, 10]] is refused with a validation error and the query does
    not run; so every threshold the query runs with lies in [[0, 10]]. *)
Theorem anomalies_threshold_validated (db : Database) :
  anomalies db None = run_anomalies db 2 /\
  (forall v, (0 <= v <= 10)%R -> anomalies db (Some v) = run_anomalies db v) /\
  (forall v, (v < 0 \/ v > 10)%R -> anomalies db (Some v) = UnprocessableEntity) /\
  (forall z rows, anomalies db z = OK rows ->
     exists t, resolve_float z_param z = Some t /\ (0 <= t <= 10)%R /\
               anomalies_query db t = Done rows).
Proof.
  split; [|split; [|split]].
  - reflexivity.
  - intros v Hv. unfold anomalies. rewrite resolve_z_in_range by exact Hv. reflexivity.
  - intros v Hv. unfold anomalies. rewrite resolve_z_out_of_range by exact Hv. reflexivity.
  - intros z rows H. unfold anomalies in H.
    destruct (resolve_float z_param z) as [t|] eqn:E; [|discriminate].
    exists t. split; [reflexivity|]. split; [apply (resolve_z_bounds z); exact E|].
    destruct (anomalies_query db t); [discriminate|]. inversion H; reflexivity.
Qed.

(* ================================================================== *)
(** * Properties of GET /assets *)
(* ================================================================== *)

Section KeyOrder.
Variable leb : string -> string -> bool.
Hypothesis leb_ok : collation_ok leb.

Lemma lex_leb_total (k1 k2 : list string) :
  lex_leb leb k1 k2 = true \/ lex_leb leb k2 k1 = true.
Proof.
  revert k2; induction k1 as [|x k1 IH]; intros [|y k2]; simpl; auto.
  rewrite (String.eqb_sym y x).
  destruct (String.eqb x y); [apply IH|apply (collation_total leb_ok)].
Qed.

Lemma lex_leb_trans (k1 k2 k3 : list string) :
  List.length k1 = List.length k2 -> List.length k2 = List.length k3 ->
  lex_leb leb k1 k2 = true -> lex_leb leb k2 k3 = true ->
  lex_leb leb k1 k3 = true.
Proof.
  revert k2 k3; induction k1 as [|x k1 IH]; intros [|y k2] [|w k3];
    simpl; intros L1 L2; try discriminate; auto.
  destruct (String.eqb x y) eqn:Exy, (String.eqb y w) eqn:Eyw.
  - apply String.eqb_eq in Exy, Eyw. subst y w.
    rewrite String.eqb_refl. apply IH; lia.
  - apply String.eqb_eq in Exy. subst y. rewrite Eyw. auto.
  - apply String.eqb_eq in Eyw. subst w. rewrite Exy. auto.
  - intros Hxy Hyw.
    destruct (String.eqb x w) eqn:Exw.
    + apply String.eqb_eq in Exw. subst w.
      apply String.eqb_neq in Exy. exfalso. apply Exy.
      apply (collation_antisym leb_ok); assumption.
    + apply (collation_trans leb_ok) with y; assumption.
Qed.

Lemma listing_leb_total (a b : Asset.t) :
  listing_leb leb a b = true \/ listing_leb leb b a = true.
Proof. apply lex_leb_total. Qed.

Lemma listing_leb_trans (a b c : Asset.t) :
  listing_leb leb a b = true -> listing_leb leb b c = true ->
  listing_leb leb a c = true.
Proof. apply lex_leb_trans; reflexivity. Qed.
End KeyOrder.

Section BytewiseCollation.
Lemma string_leb_trans (a b c : string) :
  String.leb a b = true -> String.leb b c = true -> String.leb a c = true.
Proof.
  unfold String.leb. revert b c.
  induction a as [|x a IH]; intros [|y b] [|w c]; simpl; auto; try discriminate.
  unfold Ascii.compare.
  destruct (N.compare_spec (N_of_ascii x) (N_of_ascii y)) as [E1|E1|E1],
           (N.compare_spec (N_of_ascii y) (N_of_ascii w)) as [E2|E2|E2],
           (N.compare_spec (N_of_ascii x) (N_of_ascii w)) as [E3|E3|E3];
    try lia; auto; try discriminate.
  apply IH.
Qed.

Lemma bytewise_collation_ok : collation_ok String.leb.
Proof.
  constructor.
  - apply String.leb_total.
  - apply String.leb_antisym.
  - apply string_leb_trans.
Qed.
End BytewiseCollation.

Section PageParameters.
Lemma resolve_limit (limit : option Z) :
  let l := match limit with Some v => v | None => 500%Z end in
  resolve_int limit_param limit
  = if ((1 <=? l) && (l <=? 5000))%Z then Some l else None.
Proof. destruct limit as [v|]; reflexivity. Qed.

Lemma resolve_offset (offset : option Z) :
  let o := match offset with Some v => v | None => 0%Z end in
  resolve_int offset_param offset = if (0 <=? o)%Z then Some o else None.
Proof.
  destruct offset as [v|]; [|reflexivity].
  unfold resolve_int. simpl. rewrite andb_true_r. reflexivity.
Qed.
End PageParameters.

Section AscendingOrder.
Variable db : Database.
Hypothesis db_ok : collation_ok (text_leb db).

Lemma text_leb_refl (a : string) : text_leb db a a = true.
Proof. destruct (collation_total db_ok a a); assumption. Qed.

(** The comparison of the sort is the ascending order on the columns. *)
Lemma listing_leb_ascending (r1 r2 : Asset.t) :
  listing_leb (text_leb db) r1 r2 = true -> ascending_by_key db r1 r2.
Proof.
  unfold listing_leb, sort_key, ascending_by_key, text_lt. cbn [lex_leb].
  destruct (String.eqb (Asset.asset_type r1) (Asset.asset_type r2)) eqn:Et.
  - apply String.eqb_eq in Et. right. split; [exact Et|].
    destruct (String.eqb (Asset.building r1) (Asset.building r2)) eqn:Eb.
    + apply String.eqb_eq in Eb. right. split; [exact Eb|].
      destruct (String.eqb (Asset.floor r1) (Asset.floor r2)) eqn:Ef.
      * apply String.eqb_eq in Ef. right. split; [exact Ef|].
        destruct (String.eqb (Asset.asset_id r1) (Asset.asset_id r2)) eqn:Ei.
        -- apply String.eqb_eq in Ei. rewrite Ei. apply text_leb_refl.
        -- exact H.
      * apply String.eqb_neq in Ef. left. split; assumption.
    + apply String.eqb_neq in Eb. left. split; assumption.
  - apply String.eqb_neq in Et. left. split; assumption.
Qed.

Lemma ORDER_BY_ascending (l : list Asset.t) :
  StronglySorted (ascending_by_key db) (ORDER_BY (listing_leb (text_leb db)) l).
Proof.
  rewrite <- (map_id (ORDER_BY (listing_leb (text_leb db)) l)).
  apply StronglySorted_map
    with (leB := fun a b => listing_leb (text_leb db) a b = true).
  - intros x y _ _. apply listing_leb_ascending.
  - apply ORDER_BY_sorted.
    + apply listing_leb_total. exact db_ok.
    + apply listing_leb_trans. exact db_ok.
Qed.
End AscendingOrder.

Section Int8.
Lemma fits_int8_spec (v : Z) :
  fits_int8 v = true <-> (int8_min <= v <= int8_max)%Z.
Proof.
  unfold fits_int8. rewrite andb_true_iff, !Z.leb_le. tauto.
Qed.

Lemma fits_int8_limit (l : Z) : (1 <= l <= 5000)%Z -> fits_int8 l = true.
Proof.
  intros H. apply fits_int8_spec. unfold int8_min, int8_max. lia.
Qed.

Lemma fits_int8_offset (o : Z) :
  (0 <= o)%Z -> fits_int8 o = (o <=? int8_max)%Z.
Proof.
  intros H. unfold fits_int8.
  assert (E : (int8_min <=? o)%Z = true)
    by (apply Z.leb_le; unfold int8_min; lia).
  rewrite E. reflexivity.
Qed.
End Int8.

(** C8: with a collation that is a total order, a call of [list_assets] is
    answered with rows only when [1 <= limit <= 5000] and [offset >= 0] (an
    absent [limit] is 500, an absent [offset] is 0); outside these bounds it
    is refused, and within them it fails only when [offset] does not fit a
    64-bit integer.  The rows answered are those of a permutation of the
    matches of the filters that is in ascending order of
    [(asset_type, building, floor, asset_id)], after skipping its first
    [offset] rows and keeping at most [limit]; they are in that order
    themselves. *)
Theorem list_assets_sorted_page (db : Database)
    (building floor asset_type status : option string) (limit offset : option Z) :
  collation_ok (text_leb db) ->
  let l := match limit with Some v => v | None => 500%Z end in
  let o := match offset with Some v => v | None => 0%Z end in
  match list_assets db building floor asset_type status limit offset with
  | OK rows =>
      (1 <= l <= 5000)%Z /\ (0 <= o <= int8_max)%Z /\
      exists sorted,
        Permutation (filter (where_clause building floor asset_type status) (assets db))
                    sorted /\
        StronglySorted (ascending_by_key db) sorted /\
        rows = firstn (Z.to_nat l) (skipn (Z.to_nat o) sorted) /\
        StronglySorted (ascending_by_key db) rows /\
        (List.length rows <= Z.to_nat l)%nat
  | UnprocessableEntity => ~ ((1 <= l <= 5000)%Z /\ (0 <= o)%Z)
  | InternalServerError => (1 <= l <= 5000)%Z /\ (int8_max < o)%Z
  end.
Proof.
  intros Hok l o. unfold list_assets.
  rewrite resolve_limit, resolve_offset. fold l o.
  destruct ((1 <=? l)%Z) eqn:E1; simpl.
  - destruct ((l <=? 5000)%Z) eqn:E2; simpl.
    + destruct ((0 <=? o)%Z) eqn:E3; simpl.
      * apply Z.leb_le in E1, E2, E3.
        rewrite fits_int8_limit by lia. rewrite fits_int8_offset by lia. simpl.
        destruct ((o <=? int8_max)%Z) eqn:E4.
        -- apply Z.leb_le in E4.
           split; [lia|]. split; [lia|].
           set (matches := filter (where_clause building floor asset_type status)
                                  (assets db)).
           pose proof (ORDER_BY_ascending db Hok matches) as Hs.
           exists (ORDER_BY (listing_leb (text_leb db)) matches).
           split; [apply ORDER_BY_perm|]. split; [exact Hs|].
           split; [reflexivity|]. split.
           ++ unfold list_assets_query, LIMIT, OFFSET. fold matches.
              apply StronglySorted_firstn, StronglySorted_skipn. exact Hs.
           ++ apply firstn_le_length.
        -- apply Z.leb_gt in E4. split; lia.
      * apply Z.leb_gt in E3. lia.
    + apply Z.leb_gt in E2. lia.
  - apply Z.leb_gt in E1. lia.
Qed.

Lemma list_assets_sorted_page_witness :
  collation_ok (text_leb sample_db) /\
  list_assets sample_db None None (Some "HVAC"%string) None (Some 2%Z) (Some 1%Z)
  = OK [sample_asset "B" "HVAC" 10 1; sample_asset "C" "HVAC" 100 1] /\
  StronglySorted (ascending_by_key sample_db)
    [sample_asset "B" "HVAC" 10 1; sample_asset "C" "HVAC" 100 1] /\
  exists sorted,
    Permutation (filter (where_clause None None (Some "HVAC"%string) None)
                        (assets sample_db)) sorted /\
    StronglySorted (ascending_by_key sample_db) sorted /\
    [sample_asset "B" "HVAC" 10 1; sample_asset "C" "HVAC" 100 1]
    = firstn (Z.to_nat 2) (skipn (Z.to_nat 1) sorted).
Proof.
  pose proof (list_assets_sorted_page sample_db None None (Some "HVAC"%string) None
                (Some 2%Z) (Some 1%Z) bytewise_collation_ok) as H.
  cbv zeta in H.
  change (list_assets sample_db None None (Some "HVAC"%string) None
            (Some 2%Z) (Some 1%Z))
    with (OK [sample_asset "B" "HVAC" 10 1; sample_asset "C" "HVAC" 100 1]) in H.
  destruct H as [_ [_ [sorted [HP [HS [Hrows [Hsr _]]]]]]].
  split; [exact bytewise_collation_ok|]. split; [reflexivity|].
  split; [exact Hsr|].
  exists sorted. split; [exact HP|]. split; [exact HS|exact Hrows].
Defined.

Section WhereClause.
Variables building floor asset_type status : option string.

(** What a supplied filter asks of a column; an absent one asks nothing. *)
Let asks (param : option string) (col : string) : Prop :=
  forall v, param = Some v -> col = v.

Lemma is_null_or_eq_spec (param : option string) (col : string) :
  is_null_or_eq param col = true <-> asks param col.
Proof.
  unfold asks. destruct param as [v|]; simpl.
  - rewrite String.eqb_eq. split.
    + intros -> w Hw. inversion Hw; reflexivity.
    + intros H. apply H. reflexivity.
  - split; [intros _ v Hv; discriminate|reflexivity].
Qed.

Lemma where_clause_spec (r : Asset.t) :
  where_clause building floor asset_type status r = true <->
  asks building (Asset.building r) /\ asks floor (Asset.floor r) /\
  asks asset_type (Asset.asset_type r) /\ asks status (Asset.status r).
Proof.
  unfold where_clause. rewrite !andb_true_iff, !is_null_or_eq_spec. tauto.
Qed.
End WhereClause.

(** C9: every row that [list_assets] returns is a row of the table whose
    [building], [floor], [asset_type] and [status] equal the supplied
    filters; a row passes the [WHERE] clause exactly when it equals every
    supplied filter, so an omitted filter asks nothing; and the rows
    returned are a page of all the rows that pass. *)
Theorem list_assets_filters (db : Database)
    (building floor asset_type status : option string) (limit offset : option Z)
    (rows : list Asset.t) :
  list_assets db building floor asset_type status limit offset = OK rows ->
  (forall r, In r rows ->
     In r (assets db) /\
     (forall v, building = Some v -> Asset.building r = v) /\
     (forall v, floor = Some v -> Asset.floor r = v) /\
     (forall v, asset_type = Some v -> Asset.asset_type r = v) /\
     (forall v, status = Some v -> Asset.status r = v)) /\
  (forall r,
     where_clause building floor asset_type status r = true <->
     (forall v, building = Some v -> Asset.building r = v) /\
     (forall v, floor = Some v -> Asset.floor r = v) /\
     (forall v, asset_type = Some v -> Asset.asset_type r = v) /\
     (forall v, status = Some v -> Asset.status r = v)) /\
  (exists l o all,
     Permutation (filter (where_clause building floor asset_type status) (assets db)) all /\
     rows = firstn l (skipn o all)).
Proof.
  intros H. unfold list_assets in H.
  destruct (resolve_int limit_param limit) as [l|]; [|discriminate].
  destruct (resolve_int offset_param offset) as [o|]; [|discriminate].
  destruct (fits_int8 l && fits_int8 o); [|discriminate].
  inversion H as [Hrows]. clear H.
  split; [|split].
  - intros r Hr. unfold list_assets_query, LIMIT, OFFSET in Hr.
    apply In_firstn, In_skipn, ORDER_BY_In, filter_In in Hr.
    destruct Hr as [Hin Hw]. split; [exact Hin|].
    apply where_clause_spec. exact Hw.
  - intros r. apply where_clause_spec.
  - exists (Z.to_nat l), (Z.to_nat o),
      (ORDER_BY (listing_leb (text_leb db))
         (filter (where_clause building floor asset_type status) (assets db))).
    split; [apply ORDER_BY_perm|reflexivity].
Qed.

Lemma list_assets_filters_witness :
  list_assets sample_db (Some "Building A"%string) None (Some "PUMP"%string) None None None
    = OK [sample_asset "D" "PUMP" 5 2] /\
  (forall r, In r [sample_asset "D" "PUMP" 5 2] ->
     In r (assets sample_db) /\
     (forall v, Some "Building A"%string = Some v -> Asset.building r = v) /\
     (forall v, @None string = Some v -> Asset.floor r = v) /\
     (forall v, Some "PUMP"%string = Some v -> Asset.asset_type r = v) /\
     (forall v, @None string = Some v -> Asset.status r = v)).
Proof.
  assert (H : list_assets sample_db (Some "Building A"%string) None
                (Some "PUMP"%string) None None None
              = OK [sample_asset "D" "PUMP" 5 2]) by reflexivity.
  split; [exact H|].
  exact (proj1 (list_assets_filters sample_db _ _ _ _ _ _ _ H)).
Defined.

(* ================================================================== *)
(** * Properties of GET /kpi/summary *)
(* ================================================================== *)

Section OfflineCount.
Lemma Zsum_offline_flag (rows : list Asset.t) :
  Zsum (map offline_flag rows)
  = Z.of_nat (List.length
                (filter (fun a => String.eqb (Asset.status a) "OFFLINE") rows)).
Proof.
  induction rows as [|a rows IH]; [reflexivity|].
  simpl map. unfold Zsum in *. simpl fold_right. rewrite IH.
  unfold offline_flag. simpl filter.
  destruct (String.eqb (Asset.status a) "OFFLINE"); simpl List.length; lia.
Qed.
End OfflineCount.

(** C10: in every state of the table the summary has
    [saved_kwh = baseline_kwh - actual_kwh], with [baseline_kwh] the sum of
    [planned_active_hours * energy_consumed_per_hour] and [actual_kwh] the
    sum of [actual_active_hours * energy_consumed_per_hour] over all rows,
    and [offline_count] the number of rows with status OFFLINE; over the
    empty table the four fields are 0. *)
Theorem kpi_summary_saved (db : Database) :
  let k := kpi_summary db in
  KpiSummary.saved_kwh k = (KpiSummary.baseline_kwh k - KpiSummary.actual_kwh k)%R /\
  KpiSummary.baseline_kwh k = Rsum (map planned_energy (assets db)) /\
  KpiSummary.actual_kwh k = Rsum (map actual_energy (assets db)) /\
  KpiSummary.offline_count k
    = Z.of_nat (List.length
                  (filter (fun a => String.eqb (Asset.status a) "OFFLINE") (assets db))) /\
  (forall leb,
     kpi_summary {| assets := []; text_leb := leb |}
     = {| KpiSummary.baseline_kwh := 0; KpiSummary.actual_kwh := 0;
          KpiSummary.saved_kwh := 0; KpiSummary.offline_count := 0 |}).
Proof.
  intros k.
  assert (Hoff : KpiSummary.offline_count k
                 = Z.of_nat (List.length
                     (filter (fun a => String.eqb (Asset.status a) "OFFLINE") (assets db)))).
  { unfold k, kpi_summary. simpl KpiSummary.offline_count.
    rewrite <- Zsum_offline_flag.
    destruct (assets db) as [|a rows]; reflexivity. }
  split; [|split; [|split; [|split]]].
  - unfold k, kpi_summary. destruct (assets db) as [|a rows]; simpl; [lra|reflexivity].
  - unfold k, kpi_summary. destruct (assets db) as [|a rows]; reflexivity.
  - unfold k, kpi_summary. destruct (assets db) as [|a rows]; reflexivity.
  - exact Hoff.
  - intros leb. reflexivity.
Qed.

(* ================================================================== *)
(** * A worked instance: three HVAC units and a lone pump

    HVAC energies 10, 10 and 100: mean 40, population variance 1800.  With
    threshold 1 only the third unit is reported. *)
(* ================================================================== *)

Section WorkedExample.
Lemma sample_hvac_mean : cohort_mean sample_rows "HVAC" = 40%R.
Proof. unfold cohort_mean, mean. simpl. unfold actual_energy. simpl. field. Qed.

Lemma sample_hvac_std : cohort_std sample_rows "HVAC" = sqrt 1800.
Proof.
  unfold cohort_std. f_equal. unfold var_pop, mean. simpl.
  unfold actual_energy. simpl. field.
Qed.

Lemma sqrt_1800_bounds : (30 < sqrt 1800 <= 60)%R.
Proof.
  split.
  - replace 30%R with (sqrt (30 * 30)) by (apply sqrt_square; lra).
    apply sqrt_lt_1; lra.
  - replace 60%R with (sqrt (60 * 60)) by (apply sqrt_square; lra).
    apply sqrt_le_1; lra.
Qed.

Lemma sample_zscore_low (id : string) :
  zscore_of sample_rows (sample_asset id "HVAC" 10 1) = (- 30 / sqrt 1800)%R.
Proof.
  unfold zscore_of. cbn [Asset.asset_type sample_asset].
  rewrite sample_hvac_mean, sample_hvac_std.
  pose proof sqrt_1800_bounds as B.
  assert (E : Rgtb (sqrt 1800) 0 = true) by (apply Rgtb_true; lra).
  rewrite E. unfold actual_energy. simpl. f_equal. lra.
Qed.

Lemma sample_zscore_high :
  zscore_of sample_rows (sample_asset "C" "HVAC" 100 1) = (60 / sqrt 1800)%R.
Proof.
  unfold zscore_of. cbn [Asset.asset_type sample_asset].
  rewrite sample_hvac_mean, sample_hvac_std.
  pose proof sqrt_1800_bounds as B.
  assert (E : Rgtb (sqrt 1800) 0 = true) by (apply Rgtb_true; lra).
  rewrite E. unfold actual_energy. simpl. f_equal. lra.
Qed.

Lemma sample_zscore_pump :
  zscore_of sample_rows (sample_asset "D" "PUMP" 5 2) = 0%R.
Proof.
  unfold zscore_of, cohort_std. cbn [Asset.asset_type sample_asset].
  change (map actual_energy (cohort sample_rows "PUMP"))
    with [actual_energy (sample_asset "D" "PUMP" 5 2)].
  rewrite var_pop_singleton, sqrt_0.
  assert (E : Rgtb 0 0 = false) by (apply Rgtb_false; lra).
  rewrite E. reflexivity.
Qed.

Lemma sample_matches :
  scored_matches sample_rows 1
  = [with_peer sample_rows (sample_asset "C" "HVAC" 100 1)].
Proof.
  pose proof sqrt_1800_bounds as B.
  assert (Hlow : forall id,
            scored_where sample_rows 1
              (with_peer sample_rows (sample_asset id "HVAC" 10 1)) = false).
  { intros id. unfold scored_where, with_peer. cbn [fst].
    rewrite sample_zscore_low. apply Rgeb_false.
    rewrite Rabs_left.
    - apply Rmult_lt_reg_r with (sqrt 1800); [lra|]. field_simplify; lra.
    - apply Ropp_lt_cancel. rewrite Ropp_0.
      replace (- (-30 / sqrt 1800))%R with (30 / sqrt 1800)%R by (field; lra).
      apply Rdiv_lt_0_compat; lra. }
  assert (Hhigh : scored_where sample_rows 1
                    (with_peer sample_rows (sample_asset "C" "HVAC" 100 1)) = true).
  { unfold scored_where, with_peer. cbn [fst].
    rewrite sample_zscore_high. apply Rgeb_true.
    rewrite Rabs_right.
    - apply Rle_ge. apply Rmult_le_reg_r with (sqrt 1800); [lra|]. field_simplify; lra.
    - apply Rle_ge. apply Rlt_le. apply Rdiv_lt_0_compat; lra. }
  assert (Hpump : scored_where sample_rows 1
                    (with_peer sample_rows (sample_asset "D" "PUMP" 5 2)) = false).
  { unfold scored_where, with_peer. cbn [fst].
    rewrite sample_zscore_pump, Rabs_R0. apply Rgeb_false. lra. }
  unfold scored_matches.
  change (map (with_peer sample_rows) sample_rows)
    with [with_peer sample_rows (sample_asset "A" "HVAC" 10 1);
          with_peer sample_rows (sample_asset "B" "HVAC" 10 1);
          with_peer sample_rows (sample_asset "C" "HVAC" 100 1);
          with_peer sample_rows (sample_asset "D" "PUMP" 5 2)].
  cbn [filter]. rewrite !Hlow, Hhigh, Hpump. reflexivity.
Qed.

Example anomalies_worked_example :
  anomalies_query sample_db 1
  = Done [ {| AnomalyDTO.asset_id := "C";
              AnomalyDTO.asset_type := "HVAC";
              AnomalyDTO.building := "Building A";
              AnomalyDTO.floor := "F3";
              AnomalyDTO.zone := "Z1";
              AnomalyDTO.actual_kwh := (100 * 1)%R;
              AnomalyDTO.avg_kwh := Some 40%R;
              AnomalyDTO.std_kwh := Some (sqrt 1800);
              AnomalyDTO.zscore := Some (60 / sqrt 1800)%R |} ].
Proof.
  rewrite anomalies_query_closed.
  change (assets sample_db) with sample_rows.
  unfold scored_rows, scored_ranking. rewrite sample_matches.
  cbn [map ORDER_BY insert snd scored_key LIMIT firstn Z.to_nat Pos.to_nat Pos.iter_op Nat.add].
  unfold scored_select, with_peer. cbn [fst snd].
  rewrite sample_zscore_high.
  destruct (peer_of_stats sample_rows (sample_asset "C" "HVAC" 100 1)) as [Havg Hstd].
  { simpl. right. right. left. reflexivity. }
  cbn [Asset.asset_type sample_asset] in Havg, Hstd.
  cbn [Asset.asset_type sample_asset].
  rewrite Havg, Hstd, sample_hvac_mean, sample_hvac_std. reflexivity.
Qed.

Lemma sqrt_1800_approx : (42.42 < sqrt 1800 < 42.43)%R.
Proof.
  split.
  - replace 42.42%R with (sqrt (42.42 * 42.42)) by (apply sqrt_square; lra).
    apply sqrt_lt_1; lra.
  - replace 42.43%R with (sqrt (42.43 * 42.43)) by (apply sqrt_square; lra).
    apply sqrt_lt_1; lra.
Qed.

Example sample_zscore_high_approx : (1.414 < 60 / sqrt 1800 < 1.415)%R.
Proof.
  pose proof sqrt_1800_approx as B. split.
  - apply Rmult_lt_reg_r with (sqrt 1800); [lra|]. field_simplify; lra.
  - apply Rmult_lt_reg_r with (sqrt 1800); [lra|]. field_simplify; lra.
Qed.

Example list_assets_worked_example :
  list_assets sample_db None None (Some "HVAC"%string) None (Some 2%Z) (Some 1%Z)
  = OK [sample_asset "B" "HVAC" 10 1; sample_asset "C" "HVAC" 100 1] /\
  list_assets sample_db None None None None (Some 0%Z) None = UnprocessableEntity /\
  list_assets sample_db None None None None None (Some (-1)%Z) = UnprocessableEntity.
Proof. repeat split. Qed.

Example kpi_summary_worked_example :
  KpiSummary.baseline_kwh (kpi_summary sample_db) = 130%R /\
  KpiSummary.saved_kwh (kpi_summary sample_db) = 0%R /\
  KpiSummary.offline_count (kpi_summary sample_db) = 0%Z.
Proof.
  repeat split; simpl; unfold planned_energy, actual_energy; simpl; lra.
Qed.
End WorkedExample.

(* ================================================================== *)
(** * Further properties of GET /insights/anomalies *)
(* ================================================================== *)

Section OrderByFilter.
Variable A : Type.
Variable leb : A -> A -> bool.
Hypothesis leb_total : forall x y, leb x y = true \/ leb y x = true.
Hypothesis leb_trans : forall x y z, leb x y = true -> leb y z = true -> leb x z = true.
Variable p : A -> bool.

Let le (x y : A) : Prop := leb x y = true.

Lemma insert_front (x : A) (l : list A) :
  (forall y, In y l -> leb x y = true) -> insert leb x l = x :: l.
Proof.
  destruct l as [|y l]; intros H; [reflexivity|].
  simpl. rewrite (H y (or_introl eq_refl)). reflexivity.
Qed.

Lemma filter_insert_out (x : A) (l : list A) :
  p x = false -> filter p (insert leb x l) = filter p l.
Proof.
  intros Hx. induction l as [|y l IH]; simpl.
  - rewrite Hx. reflexivity.
  - destruct (leb x y); simpl.
    + rewrite Hx. reflexivity.
    + rewrite IH. reflexivity.
Qed.

Lemma filter_insert_in (x : A) (l : list A) :
  StronglySorted le l -> p x = true ->
  filter p (insert leb x l) = insert leb x (filter p l).
Proof.
  intros Hs Hx. induction l as [|y l IH]; simpl.
  - rewrite Hx. reflexivity.
  - inversion Hs as [|? ? Hs' Hall]; subst. rewrite Forall_forall in Hall.
    destruct (leb x y) eqn:Exy.
    + cbn [filter]. rewrite Hx.
      destruct (p y).
      * simpl. rewrite Exy. reflexivity.
      * symmetry. apply insert_front. intros w Hw.
        apply filter_In in Hw. destruct Hw as [Hw _].
        apply leb_trans with y; [exact Exy|apply Hall; exact Hw].
    + cbn [filter]. destruct (p y).
      * simpl. rewrite Exy. rewrite IH by exact Hs'. reflexivity.
      * apply IH. exact Hs'.
Qed.

(** Sorting the rows that pass a test gives the sorted rows that pass
    it: filtering commutes with the stable sort of the model. *)
Lemma ORDER_BY_filter (l : list A) :
  ORDER_BY leb (filter p l) = filter p (ORDER_BY leb l).
Proof.
  induction l as [|x l IH]; [reflexivity|].
  cbn [filter ORDER_BY]. destruct (p x) eqn:Hx.
  - cbn [ORDER_BY]. rewrite IH. symmetry.
    apply filter_insert_in; [|exact Hx].
    apply ORDER_BY_sorted; assumption.
  - rewrite filter_insert_out by exact Hx. exact IH.
Qed.

Lemma StronglySorted_filter (l : list A) :
  StronglySorted le l -> StronglySorted le (filter p l).
Proof.
  induction l as [|x l IH]; intros Hs; [constructor|].
  inversion Hs as [|? ? Hs' Hall]; subst. simpl.
  destruct (p x); [|apply IH; exact Hs'].
  constructor; [apply IH; exact Hs'|].
  rewrite Forall_forall in *. intros w Hw.
  apply filter_In in Hw. apply Hall, Hw.
Qed.

(** In a sorted list, the rows passing a test that is inherited by every
    earlier row form a prefix. *)
Lemma filter_sorted_prefix (l : list A) :
  StronglySorted le l ->
  (forall x y, In x l -> In y l -> leb x y = true -> p y = true -> p x = true) ->
  filter p l = firstn (List.length (filter p l)) l.
Proof.
  induction l as [|x l IH]; intros Hs Hup; [reflexivity|].
  inversion Hs as [|? ? Hs' Hall]; subst. rewrite Forall_forall in Hall.
  simpl. destruct (p x) eqn:Hx.
  - simpl. f_equal. apply IH; [exact Hs'|].
    intros u v Hu Hv. apply Hup; right; assumption.
  - assert (E : filter p l = []).
    { destruct (filter p l) as [|w f] eqn:Ef; [reflexivity|].
      assert (Hw : In w (filter p l)) by (rewrite Ef; left; reflexivity).
      apply filter_In in Hw. destruct Hw as [Hw Hpw].
      rewrite (Hup x w (or_introl eq_refl) (or_intror Hw) (Hall w Hw) Hpw) in Hx.
      discriminate. }
    rewrite E. reflexivity.
Qed.
End OrderByFilter.

Section ListFacts.
Variable A : Type.

Lemma filter_all (p : A -> bool) (l : list A) :
  (forall x, In x l -> p x = true) -> filter p l = l.
Proof.
  induction l as [|x l IH]; intros H; [reflexivity|].
  simpl. rewrite (H x (or_introl eq_refl)). f_equal.
  apply IH. intros y Hy. apply H. right; exact Hy.
Qed.

Lemma filter_filter_imp (p q : A -> bool) (l : list A) :
  (forall x, In x l -> q x = true -> p x = true) ->
  filter q (filter p l) = filter q l.
Proof.
  induction l as [|x l IH]; intros H; [reflexivity|].
  simpl. destruct (p x) eqn:Hp; simpl.
  - destruct (q x); [f_equal|]; apply IH; intros y Hy; apply H; right; exact Hy.
  - destruct (q x) eqn:Hq.
    + rewrite (H x (or_introl eq_refl) Hq) in Hp. discriminate.
    + apply IH. intros y Hy. apply H. right; exact Hy.
Qed.

Lemma filter_map_comm (B : Type) (f : B -> A) (p : A -> bool) (l : list B) :
  filter p (map f l) = map f (filter (fun x => p (f x)) l).
Proof.
  induction l as [|x l IH]; [reflexivity|].
  simpl. destruct (p (f x)); simpl; rewrite IH; reflexivity.
Qed.

End ListFacts.

Section ThresholdOrder.
Variable db : Database.

Let rows : list Asset.t := assets db.
Let keyed : list (nullable R * (Asset.t * Peer.t)) :=
  map (scored_key rows) (map (with_peer rows) rows).
Let passes (z : R) (k : nullable R * (Asset.t * Peer.t)) : bool :=
  scored_where rows z (snd k).

Lemma scored_ranking_filter (z : R) :
  scored_ranking rows z
  = map snd (filter (passes z) (ORDER_BY key_desc_leb keyed)).
Proof.
  unfold scored_ranking, scored_matches. f_equal.
  rewrite <- (ORDER_BY_filter _ key_desc_leb key_desc_leb_total key_desc_leb_trans).
  f_equal. unfold keyed.
  rewrite (filter_map_comm _ _ (scored_key rows) (passes z)). reflexivity.
Qed.

Lemma passes_inherited (z : R) (x y : nullable R * (Asset.t * Peer.t)) :
  In x keyed -> In y keyed ->
  key_desc_leb x y = true -> passes z y = true -> passes z x = true.
Proof.
  intros Hx Hy. unfold keyed in Hx, Hy.
  apply in_map_iff in Hx. destruct Hx as [ap [<- _]].
  apply in_map_iff in Hy. destruct Hy as [bp [<- _]].
  unfold key_desc_leb, passes, scored_where, scored_key. simpl.
  rewrite !Rgeb_true. lra.
Qed.

(** With a higher threshold the ranking is a prefix of the former one. *)
Lemma scored_ranking_prefix (z1 z2 : R) :
  (z1 <= z2)%R ->
  exists n, scored_ranking rows z2 = firstn n (scored_ranking rows z1).
Proof.
  intros Hz.
  set (S := ORDER_BY key_desc_leb keyed).
  assert (HS : StronglySorted (fun x y => key_desc_leb x y = true) S)
    by (apply ORDER_BY_sorted; [apply key_desc_leb_total|apply key_desc_leb_trans]).
  assert (Hin : forall x, In x (filter (passes z1) S) -> In x keyed).
  { intros x Hx. apply filter_In in Hx. destruct Hx as [Hx _].
    apply ORDER_BY_In in Hx. exact Hx. }
  exists (List.length (filter (passes z2) (filter (passes z1) S))).
  rewrite !scored_ranking_filter. fold S.
  rewrite firstn_map. f_equal.
  rewrite <- (filter_filter_imp _ (passes z1) (passes z2)) at 1.
  - apply (filter_sorted_prefix _ key_desc_leb (passes z2)).
    + apply (StronglySorted_filter _ key_desc_leb). exact HS.
    + intros x y Hx Hy. apply passes_inherited; apply Hin; assumption.
  - intros x _. unfold passes, scored_where. rewrite !Rgeb_true. lra.
Qed.
End ThresholdOrder.

Section HalfThreshold.
(** The sample at threshold 0.5: the three HVAC units are reported, the
    outlier first; the two others tie and stay in scan order. *)
Lemma sample_matches_half :
  scored_matches sample_rows 0.5
  = [with_peer sample_rows (sample_asset "A" "HVAC" 10 1);
     with_peer sample_rows (sample_asset "B" "HVAC" 10 1);
     with_peer sample_rows (sample_asset "C" "HVAC" 100 1)].
Proof.
  pose proof sqrt_1800_bounds as B.
  assert (Hlow : forall id,
            scored_where sample_rows 0.5
              (with_peer sample_rows (sample_asset id "HVAC" 10 1)) = true).
  { intros id. unfold scored_where, with_peer. cbn [fst].
    rewrite sample_zscore_low. apply Rgeb_true.
    replace (-30 / sqrt 1800)%R with (- (30 / sqrt 1800))%R by (field; lra).
    rewrite Rabs_Ropp, Rabs_right.
    - apply Rle_ge. apply Rmult_le_reg_r with (sqrt 1800); [lra|].
      field_simplify; lra.
    - apply Rle_ge, Rlt_le. apply Rdiv_lt_0_compat; lra. }
  assert (Hhigh : scored_where sample_rows 0.5
                    (with_peer sample_rows (sample_asset "C" "HVAC" 100 1)) = true).
  { unfold scored_where, with_peer. cbn [fst].
    rewrite sample_zscore_high. apply Rgeb_true.
    rewrite Rabs_right.
    - apply Rle_ge. apply Rmult_le_reg_r with (sqrt 1800); [lra|].
      field_simplify; lra.
    - apply Rle_ge, Rlt_le. apply Rdiv_lt_0_compat; lra. }
  assert (Hpump : scored_where sample_rows 0.5
                    (with_peer sample_rows (sample_asset "D" "PUMP" 5 2)) = false).
  { unfold scored_where, with_peer. cbn [fst].
    rewrite sample_zscore_pump, Rabs_R0. apply Rgeb_false. lra. }
  unfold scored_matches.
  change (map (with_peer sample_rows) sample_rows)
    with [with_peer sample_rows (sample_asset "A" "HVAC" 10 1);
          with_peer sample_rows (sample_asset "B" "HVAC" 10 1);
          with_peer sample_rows (sample_asset "C" "HVAC" 100 1);
          with_peer sample_rows (sample_asset "D" "PUMP" 5 2)].
  cbn [filter]. rewrite !Hlow, Hhigh, Hpump. reflexivity.
Qed.

Lemma sample_ranking_half :
  scored_ranking sample_rows 0.5
  = [with_peer sample_rows (sample_asset "C" "HVAC" 100 1);
     with_peer sample_rows (sample_asset "A" "HVAC" 10 1);
     with_peer sample_rows (sample_asset "B" "HVAC" 10 1)].
Proof.
  pose proof sqrt_1800_bounds as B.
  assert (Habs_low : Rabs (-30 / sqrt 1800) = (30 / sqrt 1800)%R).
  { replace (-30 / sqrt 1800)%R with (- (30 / sqrt 1800))%R by (field; lra).
    rewrite Rabs_Ropp. apply Rabs_right.
    apply Rle_ge, Rlt_le. apply Rdiv_lt_0_compat; lra. }
  assert (Habs_high : Rabs (60 / sqrt 1800) = (60 / sqrt 1800)%R).
  { apply Rabs_right. apply Rle_ge, Rlt_le. apply Rdiv_lt_0_compat; lra. }
  assert (Hlt : (30 / sqrt 1800 < 60 / sqrt 1800)%R).
  { apply Rmult_lt_reg_r with (sqrt 1800); [lra|]. field_simplify; lra. }
  assert (Hlc : forall id,
            key_desc_leb
              (scored_key sample_rows (with_peer sample_rows (sample_asset id "HVAC" 10 1)))
              (scored_key sample_rows (with_peer sample_rows (sample_asset "C" "HVAC" 100 1)))
            = false).
  { intros id. unfold key_desc_leb, scored_key, with_peer. cbn [fst desc_leb].
    rewrite sample_zscore_low, sample_zscore_high, Habs_low, Habs_high.
    apply Rgeb_false. exact Hlt. }
  assert (Hll : forall id id',
            key_desc_leb
              (scored_key sample_rows (with_peer sample_rows (sample_asset id "HVAC" 10 1)))
              (scored_key sample_rows (with_peer sample_rows (sample_asset id' "HVAC" 10 1)))
            = true).
  { intros id id'. unfold key_desc_leb, scored_key, with_peer. cbn [fst desc_leb].
    rewrite !sample_zscore_low. apply Rgeb_true. lra. }
  unfold scored_ranking. rewrite sample_matches_half.
  cbn [map ORDER_BY insert]. rewrite Hlc.
  cbn [insert]. rewrite Hlc, Hll. reflexivity.
Qed.

Example anomalies_half_threshold_example :
  anomalies_query sample_db 0.5
  = Done [ scored_select sample_rows
             (with_peer sample_rows (sample_asset "C" "HVAC" 100 1));
           scored_select sample_rows
             (with_peer sample_rows (sample_asset "A" "HVAC" 10 1));
           scored_select sample_rows
             (with_peer sample_rows (sample_asset "B" "HVAC" 10 1)) ].
Proof.
  rewrite anomalies_query_closed.
  change (assets sample_db) with sample_rows.
  unfold scored_rows. rewrite sample_ranking_half. reflexivity.
Qed.
End HalfThreshold.

(** Raising the threshold only cuts the ranking short: for [z1 <= z2] the
    absolute z-scores of the rows returned for [z2] are, in order, the
    first absolute z-scores of the rows returned for [z1]; this holds
    whichever order rows of equal score are given. *)
Theorem raising_threshold_truncates (db : Database) (z1 z2 : R)
    (rows1 rows2 : list AnomalyDTO.t) :
  (z1 <= z2)%R ->
  anomalies_query db z1 = Done rows1 ->
  anomalies_query db z2 = Done rows2 ->
  exists n,
    map (fun r => ABS (AnomalyDTO.zscore r)) rows2
    = firstn n (map (fun r => ABS (AnomalyDTO.zscore r)) rows1).
Proof.
  intros Hz H1 H2. destruct (scored_ranking_prefix db z1 z2 Hz) as [n Hn].
  rewrite anomalies_query_closed in H1, H2.
  inversion H1 as [E1]. inversion H2 as [E2]. clear H1 H2.
  exists n. unfold LIMIT, scored_rows. rewrite Hn.
  assert (E : firstn (Z.to_nat 50)
                (map (scored_select (assets db))
                     (firstn n (scored_ranking (assets db) z1)))
              = firstn n
                  (firstn (Z.to_nat 50)
                     (map (scored_select (assets db)) (scored_ranking (assets db) z1)))).
  { rewrite <- firstn_map, !firstn_firstn, Nat.min_comm. reflexivity. }
  rewrite E. symmetry. apply firstn_map.
Qed.

Lemma raising_threshold_truncates_witness :
  (0.5 <= 1)%R /\
  exists rows1 rows2 n,
    anomalies_query sample_db 0.5 = Done rows1 /\
    anomalies_query sample_db 1 = Done rows2 /\
    List.length rows1 = 3%nat /\ List.length rows2 = 1%nat /\
    map (fun r => ABS (AnomalyDTO.zscore r)) rows2
    = firstn n (map (fun r => ABS (AnomalyDTO.zscore r)) rows1).
Proof.
  assert (H : (0.5 <= 1)%R) by lra.
  split; [exact H|].
  destruct (raising_threshold_truncates sample_db 0.5 1 _ _ H
              anomalies_half_threshold_example anomalies_worked_example) as [n Hn].
  eexists. eexists. exists n.
  split; [exact anomalies_half_threshold_example|].
  split; [exact anomalies_worked_example|].
  split; [reflexivity|]. split; [reflexivity|exact Hn].
Defined.

(** With [z = 0] nothing is filtered out: when the handler answers, it
    answers [min(50, number of assets)] rows, and for a table of at most 50
    assets every asset has its row. *)
Theorem anomalies_zero_threshold_keeps_all (db : Database)
    (rows : list AnomalyDTO.t) :
  anomalies db (Some 0%R) = OK rows ->
  List.length rows = Nat.min 50 (List.length (assets db)) /\
  ((List.length (assets db) <= 50)%nat ->
   forall a, In a (assets db) ->
     exists r, In r rows /\
       AnomalyDTO.asset_id r = Asset.asset_id a /\
       AnomalyDTO.asset_type r = Asset.asset_type a /\
       AnomalyDTO.actual_kwh r = actual_energy a).
Proof.
  intros H.
  assert (Hm : scored_matches (assets db) 0 = map (with_peer (assets db)) (assets db)).
  { unfold scored_matches. apply filter_all. intros ap _.
    unfold scored_where. apply Rgeb_true. apply Rle_ge, Rabs_pos. }
  assert (Hlen : List.length (scored_rows (assets db) 0) = List.length (assets db)).
  { unfold scored_rows. rewrite length_map.
    rewrite <- (Permutation_length (scored_ranking_perm db 0)), Hm, length_map.
    reflexivity. }
  unfold anomalies in H. rewrite resolve_z_in_range in H by lra.
  rewrite anomalies_query_closed in H. inversion H as [Hrows]. clear H.
  split.
  - unfold LIMIT. rewrite length_firstn, Hlen. reflexivity.
  - intros Hn a Ha. unfold LIMIT.
    rewrite firstn_all2 by (rewrite Hlen; exact Hn).
    exists (scored_select (assets db) (with_peer (assets db) a)).
    split; [|simpl; auto].
    unfold scored_rows. apply in_map.
    apply (Permutation_in _ (scored_ranking_perm db 0)).
    rewrite Hm. apply in_map. exact Ha.
Qed.

Lemma anomalies_zero_threshold_keeps_all_witness :
  exists rows,
    anomalies sample_db (Some 0%R) = OK rows /\
    List.length rows = Nat.min 50 (List.length (assets sample_db)).
Proof.
  assert (H : anomalies sample_db (Some 0%R)
              = OK (LIMIT 50 (scored_rows (assets sample_db) 0))).
  { unfold anomalies. rewrite resolve_z_in_range by lra.
    rewrite anomalies_query_closed. reflexivity. }
  exists (LIMIT 50 (scored_rows (assets sample_db) 0)).
  split; [exact H|].
  exact (proj1 (anomalies_zero_threshold_keeps_all sample_db _ H)).
Defined.

(** Every returned row copies an asset of the table, carries non-NULL
    statistics with a non-negative standard deviation, and its z-score is
    the one its own columns give: [(actual_kwh - avg_kwh) / std_kwh] when
    [std_kwh > 0], otherwise 0. *)
Theorem anomaly_rows_self_consistent (db : Database) (z : R)
    (rows : list AnomalyDTO.t) (r : AnomalyDTO.t) :
  anomalies_query db z = Done rows -> In r rows ->
  exists a m s v,
    In a (assets db) /\
    AnomalyDTO.asset_id r = Asset.asset_id a /\
    AnomalyDTO.asset_type r = Asset.asset_type a /\
    AnomalyDTO.building r = Asset.building a /\
    AnomalyDTO.floor r = Asset.floor a /\
    AnomalyDTO.zone r = Asset.zone a /\
    AnomalyDTO.actual_kwh r = actual_energy a /\
    AnomalyDTO.avg_kwh r = Some m /\
    AnomalyDTO.std_kwh r = Some s /\
    AnomalyDTO.zscore r = Some v /\
    (0 <= s)%R /\
    ((s > 0)%R -> v = ((AnomalyDTO.actual_kwh r - m) / s)%R) /\
    (s = 0%R -> v = 0%R).
Proof.
  intros Hq Hr.
  rewrite anomalies_query_closed in Hq. inversion Hq as [Hrows]. clear Hq.
  rewrite <- Hrows in Hr. apply In_firstn, scored_rows_In in Hr.
  destruct Hr as [a [Ha [-> _]]].
  destruct (peer_of_stats (assets db) a Ha) as [Havg Hstd].
  exists a, (cohort_mean (assets db) (Asset.asset_type a)),
         (cohort_std (assets db) (Asset.asset_type a)),
         (zscore_of (assets db) a).
  pose proof (cohort_std_nonneg (assets db) (Asset.asset_type a)) as Hs.
  unfold scored_select, with_peer. cbn [fst snd AnomalyDTO.asset_id
    AnomalyDTO.asset_type AnomalyDTO.building AnomalyDTO.floor AnomalyDTO.zone
    AnomalyDTO.actual_kwh AnomalyDTO.avg_kwh AnomalyDTO.std_kwh AnomalyDTO.zscore].
  repeat (split; [first [reflexivity | assumption]|]).
  split.
  - intros Hpos. unfold zscore_of. apply Rgtb_true in Hpos. rewrite Hpos. reflexivity.
  - intros H0. unfold zscore_of.
    assert (E : Rgtb (cohort_std (assets db) (Asset.asset_type a)) 0 = false)
      by (apply Rgtb_false; lra).
    rewrite E. reflexivity.
Qed.

Lemma anomaly_rows_self_consistent_witness :
  exists r,
    anomalies_query sample_db 1 = Done [r] /\
    exists a m s v,
      In a (assets sample_db) /\
      AnomalyDTO.asset_id r = Asset.asset_id a /\
      AnomalyDTO.asset_type r = Asset.asset_type a /\
      AnomalyDTO.building r = Asset.building a /\
      AnomalyDTO.floor r = Asset.floor a /\
      AnomalyDTO.zone r = Asset.zone a /\
      AnomalyDTO.actual_kwh r = actual_energy a /\
      AnomalyDTO.avg_kwh r = Some m /\
      AnomalyDTO.std_kwh r = Some s /\
      AnomalyDTO.zscore r = Some v /\
      (0 <= s)%R /\
      ((s > 0)%R -> v = ((AnomalyDTO.actual_kwh r - m) / s)%R) /\
      (s = 0%R -> v = 0%R).
Proof.
  eexists. split; [exact anomalies_worked_example|].
  exact (anomaly_rows_self_consistent sample_db 1 _ _
           anomalies_worked_example (or_introl eq_refl)).
Defined.

(* ================================================================== *)
(** * Further properties of GET /assets *)
(* ================================================================== *)

Section Listing.
Variable db : Database.
Variables building floor asset_type status : option string.

Let matches : list Asset.t :=
  filter (where_clause building floor asset_type status) (assets db).


Lemma list_assets_query_length (l o : Z) :
  List.length (list_assets_query db building floor asset_type status l o)
  = Nat.min (Z.to_nat l) (List.length matches - Z.to_nat o).
Proof.
  unfold list_assets_query, LIMIT, OFFSET.
  rewrite length_firstn, length_skipn, ORDER_BY_length. reflexivity.
Qed.

End Listing.



Section ScanOrder.
Variable leb : string -> string -> bool.
Hypothesis leb_ok : collation_ok leb.

Lemma lex_leb_antisym (k1 k2 : list string) :
  List.length k1 = List.length k2 ->
  lex_leb leb k1 k2 = true -> lex_leb leb k2 k1 = true -> k1 = k2.
Proof.
  revert k2; induction k1 as [|x k1 IH]; intros [|y k2] L; simpl in *;
    try discriminate; [reflexivity|].
  rewrite (String.eqb_sym y x).
  destruct (String.eqb x y) eqn:E.
  - apply String.eqb_eq in E. subst y. intros H1 H2. f_equal.
    apply IH; [lia|assumption|assumption].
  - intros H1 H2. apply String.eqb_neq in E. exfalso. apply E.
    apply (collation_antisym leb_ok); assumption.
Qed.

Lemma Permutation_filter_compat (A : Type) (p : A -> bool) (l l' : list A) :
  Permutation l l' -> Permutation (filter p l) (filter p l').
Proof.
  induction 1 as [|x l l' _ IH|x y l|l l' l'' _ IH1 _ IH2]; simpl.
  - constructor.
  - destruct (p x); [apply perm_skip|]; exact IH.
  - destruct (p x), (p y); try apply Permutation_refl. apply perm_swap.
  - eapply Permutation_trans; eassumption.
Qed.

(** Two sorted lists with the same members are equal when no two members
    tie. *)
Lemma sorted_perm_unique (A : Type) (le : A -> A -> Prop) (l1 l2 : list A) :
  (forall x y, In x l1 -> In y l1 -> le x y -> le y x -> x = y) ->
  StronglySorted le l1 -> StronglySorted le l2 -> Permutation l1 l2 -> l1 = l2.
Proof.
  revert l2. induction l1 as [|x l1 IH]; intros l2 Hanti H1 H2 HP.
  - apply Permutation_nil in HP. subst. reflexivity.
  - destruct l2 as [|y l2].
    + apply Permutation_sym, Permutation_nil in HP. discriminate.
    + inversion H1 as [|? ? H1' A1]; subst. inversion H2 as [|? ? H2' A2]; subst.
      rewrite Forall_forall in A1, A2.
      assert (Hy : In y (x :: l1))
        by (apply (Permutation_in _ (Permutation_sym HP)); left; reflexivity).
      assert (Hx : In x (y :: l2))
        by (apply (Permutation_in _ HP); left; reflexivity).
      assert (E : x = y).
      { destruct Hy as [Hy|Hy]; [exact Hy|].
        destruct Hx as [Hx|Hx]; [symmetry; exact Hx|].
        apply Hanti; [left; reflexivity|right; exact Hy|apply A1, Hy|apply A2, Hx]. }
      subst y. f_equal. apply IH.
      * intros u v Hu Hv. apply Hanti; right; assumption.
      * exact H1'.
      * exact H2'.
      * apply Permutation_cons_inv with x. exact HP.
Qed.
End ScanOrder.

Section UniqueListing.
Variable db : Database.
Hypothesis db_ok : collation_ok (text_leb db).
Hypothesis keys_unique :
  forall x y, In x (assets db) -> In y (assets db) -> sort_key x = sort_key y -> x = y.

(** Two rows that each sort no later than the other have the same key. *)
Lemma ascending_same_key (a b : Asset.t) :
  ascending_by_key db a b -> ascending_by_key db b a -> sort_key a = sort_key b.
Proof.
  pose proof (collation_antisym db_ok) as anti.
  unfold ascending_by_key, text_lt, sort_key. intros H1 H2.
  repeat match goal with
         | H : _ \/ _ |- _ => destruct H
         | H : _ /\ _ |- _ => destruct H
         end;
    try solve [ exfalso;
                match goal with
                | L1 : text_leb db ?x ?y = true, L2 : text_leb db ?y ?x = true,
                  N : ?x <> ?y |- _ => apply N, anti; assumption
                | N : ?x <> ?y, E : ?y = ?x |- _ => apply N; symmetry; exact E
                | N : ?x <> ?y, E : ?x = ?y |- _ => apply N; exact E
                end ].
  assert (Asset.asset_id a = Asset.asset_id b) by (apply anti; assumption).
  congruence.
Qed.

Lemma StronglySorted_filter_rel (A : Type) (le : A -> A -> Prop) (p : A -> bool)
    (l : list A) :
  StronglySorted le l -> StronglySorted le (filter p l).
Proof.
  induction l as [|x l IH]; intros Hs; [constructor|].
  inversion Hs as [|? ? Hs' Hall]; subst. simpl.
  destruct (p x); [|apply IH; exact Hs'].
  constructor; [apply IH; exact Hs'|].
  rewrite Forall_forall in *. intros w Hw.
  apply filter_In in Hw. apply Hall, Hw.
Qed.

(** With distinct keys there is one ascending arrangement of any of the
    table's rows: two ascending lists with the same rows of the table are
    equal. *)
Lemma ascending_unique (l1 l2 : list Asset.t) :
  (forall x, In x l1 -> In x (assets db)) ->
  Permutation l1 l2 ->
  StronglySorted (ascending_by_key db) l1 ->
  StronglySorted (ascending_by_key db) l2 ->
  l1 = l2.
Proof.
  intros Hin HP H1 H2.
  apply (sorted_perm_unique _ (ascending_by_key db)); try assumption.
  intros x y Hx Hy Hxy Hyx.
  apply keys_unique; [apply Hin, Hx|apply Hin, Hy|].
  apply ascending_same_key; assumption.
Qed.

(** Whatever ascending arrangement of the matching rows the database
    produces, it is the one [ORDER BY] has in the model. *)
Lemma listing_unique (building floor asset_type status : option string)
    (sorted : list Asset.t) :
  Permutation (filter (where_clause building floor asset_type status) (assets db))
              sorted ->
  StronglySorted (ascending_by_key db) sorted ->
  ORDER_BY (listing_leb (text_leb db))
           (filter (where_clause building floor asset_type status) (assets db))
  = sorted.
Proof.
  intros HP HS. apply ascending_unique.
  - intros x Hx. apply ORDER_BY_In, filter_In in Hx. apply Hx.
  - eapply Permutation_trans; [apply Permutation_sym, ORDER_BY_perm|exact HP].
  - apply ORDER_BY_ascending. exact db_ok.
  - exact HS.
Qed.
End UniqueListing.

(** The four rows of the sample have distinct sort keys. *)
Lemma sample_keys_unique (x y : Asset.t) :
  In x (assets sample_db) -> In y (assets sample_db) ->
  sort_key x = sort_key y -> x = y.
Proof.
  intros Hx Hy. simpl in Hx, Hy.
  repeat (destruct Hx as [<-|Hx]; [|]);
  try contradiction;
  repeat (destruct Hy as [<-|Hy]; [|]);
  try contradiction; intros E; try reflexivity; discriminate E.
Qed.



(** Filters never reorder.  When no two assets share
    [(asset_type, building, floor, asset_id)], the ascending arrangement of
    the rows that pass the filters is the ascending arrangement of the whole
    table with the rows failing the filters removed; the rows a call answers
    are cut from it by [OFFSET] and [LIMIT]. *)
Theorem list_assets_filter_keeps_order (db : Database)
    (building floor asset_type status : option string) (l o : Z)
    (all matching : list Asset.t) :
  collation_ok (text_leb db) ->
  (forall x y, In x (assets db) -> In y (assets db) ->
               sort_key x = sort_key y -> x = y) ->
  Permutation (assets db) all ->
  StronglySorted (ascending_by_key db) all ->
  Permutation (filter (where_clause building floor asset_type status) (assets db))
              matching ->
  StronglySorted (ascending_by_key db) matching ->
  matching = filter (where_clause building floor asset_type status) all /\
  list_assets_query db building floor asset_type status l o
  = LIMIT l (OFFSET o (filter (where_clause building floor asset_type status) all)).
Proof.
  intros Hok Huniq HPa HSa HPm HSm.
  assert (E : matching = filter (where_clause building floor asset_type status) all).
  { apply (ascending_unique db Hok Huniq).
    - intros x Hx. apply (Permutation_in _ (Permutation_sym HPm)) in Hx.
      apply filter_In in Hx. apply Hx.
    - eapply Permutation_trans; [apply Permutation_sym; exact HPm|].
      apply Permutation_filter_compat. exact HPa.
    - exact HSm.
    - apply StronglySorted_filter_rel. exact HSa. }
  split; [exact E|].
  unfold list_assets_query.
  rewrite (listing_unique db Hok Huniq building floor asset_type status matching HPm HSm).
  rewrite E. reflexivity.
Qed.

Lemma list_assets_filter_keeps_order_witness :
  let all := [sample_asset "A" "HVAC" 10 1; sample_asset "B" "HVAC" 10 1;
              sample_asset "C" "HVAC" 100 1; sample_asset "D" "PUMP" 5 2] in
  let matching := [sample_asset "A" "HVAC" 10 1; sample_asset "B" "HVAC" 10 1;
                   sample_asset "C" "HVAC" 100 1] in
  collation_ok (text_leb sample_db) /\
  StronglySorted (ascending_by_key sample_db) all /\
  StronglySorted (ascending_by_key sample_db) matching /\
  matching = filter (where_clause None None (Some "HVAC"%string) None) all /\
  list_assets_query sample_db None None (Some "HVAC"%string) None 2 1
  = LIMIT 2 (OFFSET 1 (filter (where_clause None None (Some "HVAC"%string) None) all)).
Proof.
  intros all matching.
  assert (HSa : StronglySorted (ascending_by_key sample_db) all)
    by apply (ORDER_BY_ascending sample_db bytewise_collation_ok sample_rows).
  assert (HSm : StronglySorted (ascending_by_key sample_db) matching)
    by apply (ORDER_BY_ascending sample_db bytewise_collation_ok
                (filter (where_clause None None (Some "HVAC"%string) None) sample_rows)).
  split; [exact bytewise_collation_ok|]. split; [exact HSa|]. split; [exact HSm|].
  exact (list_assets_filter_keeps_order sample_db None None (Some "HVAC"%string) None
           2 1 all matching bytewise_collation_ok sample_keys_unique
           (Permutation_refl _) HSa (Permutation_refl _) HSm).
Defined.

(** When no two assets share [(asset_type, building, floor, asset_id)],
    the listing does not depend on the order in which the table is scanned:
    two tables with the same rows give the same pages. *)
Theorem list_assets_scan_order_independent (db db' : Database)
    (building floor asset_type status : option string) (l o : Z) :
  collation_ok (text_leb db) ->
  text_leb db' = text_leb db ->
  Permutation (assets db) (assets db') ->
  (forall x y, In x (assets db) -> In y (assets db) ->
               sort_key x = sort_key y -> x = y) ->
  list_assets_query db' building floor asset_type status l o
  = list_assets_query db building floor asset_type status l o.
Proof.
  intros Hok Hleb HP Huniq. unfold list_assets_query. rewrite Hleb.
  do 2 f_equal. symmetry.
  set (w := where_clause building floor asset_type status).
  pose proof (listing_leb_total _ Hok) as Ht.
  pose proof (listing_leb_trans _ Hok) as Htr.
  apply (sorted_perm_unique _ (fun a b => listing_leb (text_leb db) a b = true)).
  - intros x y Hx Hy Hxy Hyx.
    apply ORDER_BY_In, filter_In in Hx. apply ORDER_BY_In, filter_In in Hy.
    apply Huniq; [apply Hx|apply Hy|].
    apply (lex_leb_antisym _ Hok); [reflexivity|exact Hxy|exact Hyx].
  - apply ORDER_BY_sorted; assumption.
  - apply ORDER_BY_sorted; assumption.
  - eapply Permutation_trans; [apply Permutation_sym, ORDER_BY_perm|].
    eapply Permutation_trans; [|apply ORDER_BY_perm].
    apply Permutation_filter_compat. exact HP.
Qed.

Lemma list_assets_scan_order_independent_witness :
  let db' := bytewise_db (rev sample_rows) in
  collation_ok (text_leb sample_db) /\
  Permutation (assets sample_db) (assets db') /\
  list_assets_query db' None None None None 3 1
  = list_assets_query sample_db None None None None 3 1.
Proof.
  assert (HP : Permutation (assets sample_db) (assets (bytewise_db (rev sample_rows))))
    by apply Permutation_rev.
  assert (HU : forall x y, In x (assets sample_db) -> In y (assets sample_db) ->
                           sort_key x = sort_key y -> x = y).
  { intros x y Hx Hy. simpl in Hx, Hy.
    repeat (destruct Hx as [<-|Hx]; [|]);
    try contradiction;
    repeat (destruct Hy as [<-|Hy]; [|]);
    try contradiction; intros E; try reflexivity; discriminate E. }
  split; [exact bytewise_collation_ok|]. split; [exact HP|].
  exact (list_assets_scan_order_independent sample_db (bytewise_db (rev sample_rows))
           None None None None 3 1
           bytewise_collation_ok eq_refl HP HU).
Defined.

(* ================================================================== *)
(** * Further properties of GET /kpi/summary *)
(* ================================================================== *)

Section Savings.
Open Scope R_scope.

(** What one asset saves: the hours it did not run, at its hourly rate. *)
Let saving (a : Asset.t) : R :=
  (Asset.planned_active_hours a - Asset.actual_active_hours a)
  * Asset.energy_consumed_per_hour a.

Lemma Rsum_savings (rows : list Asset.t) :
  Rsum (map planned_energy rows) - Rsum (map actual_energy rows)
  = Rsum (map saving rows).
Proof.
  induction rows as [|a rows IH]; unfold Rsum in *; simpl.
  - lra.
  - rewrite <- IH. unfold planned_energy, actual_energy, saving. ring.
Qed.

Lemma Rsum_nonneg (l : list R) : (forall x, In x l -> 0 <= x) -> 0 <= Rsum l.
Proof.
  induction l as [|x l IH]; intros H; unfold Rsum in *; simpl; [lra|].
  pose proof (H x (or_introl eq_refl)).
  assert (0 <= fold_right Rplus 0 l) by (apply IH; intros y Hy; apply H; right; exact Hy).
  lra.
Qed.

Lemma kpi_saved_difference (db : Database) :
  KpiSummary.saved_kwh (kpi_summary db)
  = KpiSummary.baseline_kwh (kpi_summary db) - KpiSummary.actual_kwh (kpi_summary db).
Proof.
  unfold kpi_summary. destruct (assets db) as [|a rows]; simpl; [lra|reflexivity].
Qed.

Lemma kpi_saved_sum (db : Database) :
  KpiSummary.saved_kwh (kpi_summary db) = Rsum (map saving (assets db)).
Proof.
  rewrite <- Rsum_savings.
  unfold kpi_summary. destruct (assets db) as [|a rows]; simpl.
  - unfold Rsum. simpl. lra.
  - reflexivity.
Qed.

Lemma kpi_offline_count (db : Database) :
  KpiSummary.offline_count (kpi_summary db)
  = Z.of_nat (List.length
                (filter (fun a => String.eqb (Asset.status a) "OFFLINE") (assets db))).
Proof.
  unfold kpi_summary. simpl KpiSummary.offline_count.
  rewrite <- Zsum_offline_flag.
  destruct (assets db) as [|a rows]; reflexivity.
Qed.

(** When no asset ran longer than planned and no rate is negative, the
    summary reports a non-negative saving. *)
Theorem kpi_saved_nonneg (db : Database) :
  (forall a, In a (assets db) ->
     Asset.actual_active_hours a <= Asset.planned_active_hours a /\
     0 <= Asset.energy_consumed_per_hour a) ->
  0 <= KpiSummary.saved_kwh (kpi_summary db) /\
  KpiSummary.actual_kwh (kpi_summary db) <= KpiSummary.baseline_kwh (kpi_summary db).
Proof.
  intros H.
  assert (Hs : 0 <= KpiSummary.saved_kwh (kpi_summary db)).
  { rewrite kpi_saved_sum. apply Rsum_nonneg.
    intros x Hx. apply in_map_iff in Hx. destruct Hx as [a [<- Ha]].
    destruct (H a Ha) as [H1 H2]. apply Rmult_le_pos; lra. }
  split; [exact Hs|].
  pose proof (kpi_saved_difference db) as E. lra.
Qed.
End Savings.

Lemma kpi_saved_nonneg_witness :
  (forall a, In a (assets sample_db) ->
     (Asset.actual_active_hours a <= Asset.planned_active_hours a)%R /\
     (0 <= Asset.energy_consumed_per_hour a)%R) /\
  (0 <= KpiSummary.saved_kwh (kpi_summary sample_db))%R.
Proof.
  assert (H : forall a, In a (assets sample_db) ->
     (Asset.actual_active_hours a <= Asset.planned_active_hours a)%R /\
     (0 <= Asset.energy_consumed_per_hour a)%R).
  { intros a Ha. simpl in Ha.
    repeat (destruct Ha as [<-|Ha]; [simpl; lra|]). contradiction. }
  split; [exact H|].
  exact (proj1 (kpi_saved_nonneg sample_db H)).
Defined.

(** The two endpoints agree on offline assets: for a table of at most
    5000 rows, [offline_count] is the number of rows that the listing
    returns for [status=OFFLINE] with the largest limit. *)
Theorem offline_count_matches_listing (db : Database) :
  (List.length (assets db) <= 5000)%nat ->
  exists rows,
    list_assets db None None None (Some "OFFLINE"%string) (Some 5000%Z) None = OK rows /\
    KpiSummary.offline_count (kpi_summary db) = Z.of_nat (List.length rows).
Proof.
  intros Hn.
  exists (list_assets_query db None None None (Some "OFFLINE"%string) 5000 0).
  split; [reflexivity|].
  rewrite kpi_offline_count. f_equal.
  rewrite list_assets_query_length.
  assert (E : filter (where_clause None None None (Some "OFFLINE"%string)) (assets db)
              = filter (fun a => String.eqb (Asset.status a) "OFFLINE") (assets db)).
  { apply filter_ext. intros a. reflexivity. }
  rewrite E.
  pose proof (filter_length_le (fun a => String.eqb (Asset.status a) "OFFLINE") (assets db)).
  change (Z.to_nat 0) with 0%nat. change (Z.to_nat 5000) with (Pos.to_nat 5000).
  lia.
Qed.

Lemma offline_count_matches_listing_witness :
  (List.length (assets sample_db) <= 5000)%nat /\
  exists rows,
    list_assets sample_db None None None (Some "OFFLINE"%string) (Some 5000%Z) None
      = OK rows /\
    KpiSummary.offline_count (kpi_summary sample_db) = Z.of_nat (List.length rows).
Proof.
  assert (H : (List.length (assets sample_db) <= 5000)%nat) by (simpl; lia).
  split; [exact H|].
  exact (offline_count_matches_listing sample_db H).
Defined.
